(** * Sketch Master AI: drawing-session metrics and snapshot history

    A shallow embedding of the [DrawingCanvas] component (stroke metrics,
    undo/redo snapshot stacks) and of [getMetricsPayload] of [App.tsx].

    JavaScript numbers are idealised as exact rationals ([Q]): the formulas
    of the source are kept operation by operation, without the rounding of
    IEEE doubles.  Values read from the environment by a handler
    ([Date.now()], [getBoundingClientRect()]) are arguments of the handler.
    The browser's canvas is an interface ([CanvasAPI]); [Math.sqrt] is a
    parameter of the functions that call it.  The sounds played by
    [SoundManager] and the rendered markup are left out. *)

From Stdlib Require Import QArith Qminmax Qround ZArith List String Ascii Bool Lia Lqa.
Import ListNotations.
Open Scope Q_scope.

(** ** JavaScript built-ins used by the source *)

Module JS.

(** [x < y] on numbers. *)
Definition ltb (x y : Q) : bool := negb (Qle_bool y x).

(** [x > y] on numbers. *)
Definition gtb (x y : Q) : bool := ltb y x.

(** [Math.min], [Math.max] and [Math.pow(x, 2)]. *)
Definition Math_min (x y : Q) : Q := Qmin x y.
Definition Math_max (x y : Q) : Q := Qmax x y.
Definition Math_pow2 (x : Q) : Q := x ^ 2.

(** The integer [n] with [n / 100] closest to [x >= 0], the larger one
    at a tie (Number.prototype.toFixed, step 10.a). *)
Definition nearest_hundredth (x : Q) : Z := Qfloor (x * 100 + (1 # 2)).

(** [parseFloat(x.toFixed(2))]: the sign is split off, magnitudes from
    [10^21] on are printed in full, the others with two decimals. *)
Definition toFixed2 (x : Q) : Q :=
  let s := ltb x 0 in
  let m := if s then - x else x in
  let r := if Qle_bool (1000000000000000000000 # 1) m then m
           else inject_Z (nearest_hundredth m) / 100 in
  if s then - r else r.

(** Arrays: [push] appends, [pop] takes the last element, [shift] drops
    the first. *)
Definition push {A} (l : list A) (x : A) : list A := l ++ [x].

Definition pop {A} (l : list A) : option (list A * A) :=
  match rev l with
  | [] => None
  | x :: _ => Some (removelast l, x)
  end.

Definition shift {A} (l : list A) : list A := tl l.

(** [s.split(',')]. *)
Fixpoint split_comma (s : string) : list string :=
  match s with
  | EmptyString => [EmptyString]
  | String c s' =>
      if Ascii.eqb c ","%char then EmptyString :: split_comma s'
      else match split_comma s' with
           | [] => [String c EmptyString]
           | h :: t => String c h :: t
           end
  end.

(** The result of an expression that may be [undefined]. *)
Inductive value := Str (s : string) | Undefined.

Definition index1 (l : list string) : value :=
  match nth_error l 1 with
  | Some s => Str s
  | None => Undefined
  end.

(** Whether a string has a comma in it. *)
Fixpoint has_comma (s : string) : bool :=
  match s with
  | EmptyString => false
  | String c s' => Ascii.eqb c ","%char || has_comma s'
  end.

(** [Math.round]: the nearest integer, the larger one at a tie. *)
Definition Math_round (x : Q) : Z := Qfloor (x + (1 # 2)).

(** [s.repeat(count)] for an integer [count]; a negative count throws a
    RangeError ([None]). *)
Fixpoint copies (n : nat) (s : string) : string :=
  match n with
  | O => EmptyString
  | S n' => (s ++ copies n' s)%string
  end.

Definition String_repeat (s : string) (count : Z) : option string :=
  if (count <? 0)%Z then None else Some (copies (Z.to_nat count) s).

(** What storing a number in an [Int16Array] keeps (ToInt16): the number
    is truncated towards zero, taken modulo [2^16] and read as a signed
    16-bit integer. *)
Definition truncate (x : Q) : Z := Z.quot (Qnum x) (Zpos (Qden x)).

Definition ToInt16 (x : Q) : Z :=
  let int := truncate x in
  let int16bit := (int mod 65536)%Z in
  if (32768 <=? int16bit)%Z then (int16bit - 65536)%Z else int16bit.

(** [!v] for a value that is a string, [null] or [undefined] ([None]). *)
Definition falsy (v : option string) : bool :=
  match v with
  | None => true
  | Some EmptyString => true
  | Some _ => false
  end.

Definition optional (v : value) : option string :=
  match v with
  | Str s => Some s
  | Undefined => None
  end.

End JS.

(** ** components/DrawingCanvas *)

Module DrawingCanvas.

Record DrawingMetrics := mkMetrics {
  strokeCount : Q;
  lastStrokeTime : Q;
  hesitationSeconds : Q;
  totalDrawingTime : Q;
  clearCount : Q;
  undoCount : Q;
  averageSpeed : Q
}.

Definition MAX_HISTORY : nat := 50.

(** The data model's side condition: every field is [>= 0]. *)
Definition non_negative (m : DrawingMetrics) : Prop :=
  0 <= strokeCount m /\ 0 <= lastStrokeTime m /\ 0 <= hesitationSeconds m /\
  0 <= totalDrawingTime m /\ 0 <= clearCount m /\ 0 <= undoCount m /\
  0 <= averageSpeed m.

Inductive LineStyle := solid | dashed | dotted.

(** What [draw] sets on the 2D context before stroking. *)
Record Pen := mkPen {
  pen_lineWidth : Q;
  pen_strokeStyle : string;
  pen_lineDash : list Q
}.

(** The part of [HTMLCanvasElement] and of its 2D context the component
    calls.  [Surface] is the bitmap together with the current path. *)
Class CanvasAPI (Surface : Type) := {
  (** [canvas.toDataURL()] *)
  toDataURL : Surface -> string;
  (** [canvas.toDataURL('image/jpeg', 0.8)] *)
  toDataURL_jpeg : Surface -> string;
  (** [ctx.fillStyle = '#1e293b'; ctx.fillRect(0, 0, width, height)] *)
  fillBackground : Surface -> Surface;
  (** [ctx.drawImage(img, 0, 0)] for the image decoded from a data URL *)
  drawImage : string -> Surface -> Surface;
  (** [ctx.lineTo(x, y); ctx.stroke(); ctx.beginPath(); ctx.moveTo(x, y)]
      with the pen's width, colour and dash pattern *)
  strokeTo : Pen -> Q * Q -> Surface -> Surface;
  (** [ctx.beginPath()] *)
  beginPath : Surface -> Surface
}.

(** The canvas element behind [canvasRef.current]; [ctx2d] tells whether
    [getContext('2d')] returns a context. *)
Record CanvasEl (Surface : Type) := mkCanvas {
  ctx2d : bool;
  surface : Surface
}.
Arguments mkCanvas {Surface}.
Arguments ctx2d {Surface}.
Arguments surface {Surface}.

(** [getBoundingClientRect()], as far as [draw] reads it. *)
Record Rect := mkRect { left : Q; top : Q }.

(** A mouse event, or a touch event with its first touch and the others. *)
Inductive PointerEvent :=
  | MouseEvent (clientX clientY : Q)
  | TouchEvent (touch0 : Q * Q) (more : list (Q * Q)).

(** Refs, state and props of one mounted component.  [isDrawing] is the
    value the handlers of the last render closed over; [loading] holds the
    data URLs of the images whose [onload] has not fired yet. *)
Record State (Surface : Type) := mkState {
  canvasRef : option (CanvasEl Surface);
  isActive : bool;
  isDrawing : bool;
  color : string;
  lineWidth : Q;
  lineStyle : LineStyle;
  metrics : DrawingMetrics;
  lastPos : option (Q * Q);
  drawStartTime : Q;
  undoStack : list string;
  redoStack : list string;
  loading : list string
}.
Arguments mkState {Surface}.
Arguments canvasRef {Surface}.
Arguments isActive {Surface}.
Arguments isDrawing {Surface}.
Arguments color {Surface}.
Arguments lineWidth {Surface}.
Arguments lineStyle {Surface}.
Arguments metrics {Surface}.
Arguments lastPos {Surface}.
Arguments drawStartTime {Surface}.
Arguments undoStack {Surface}.
Arguments redoStack {Surface}.
Arguments loading {Surface}.

Section Component.

Context {Surface : Type} `{CanvasAPI Surface}.

Local Abbreviation St := (State Surface).

(** *** Field updates *)

Definition set_canvasRef (v : option (CanvasEl Surface)) (st : St) : St :=
  mkState v (isActive st) (isDrawing st) (color st) (lineWidth st)
    (lineStyle st) (metrics st) (lastPos st) (drawStartTime st)
    (undoStack st) (redoStack st) (loading st).

Definition set_isDrawing (v : bool) (st : St) : St :=
  mkState (canvasRef st) (isActive st) v (color st) (lineWidth st)
    (lineStyle st) (metrics st) (lastPos st) (drawStartTime st)
    (undoStack st) (redoStack st) (loading st).

Definition set_color (v : string) (st : St) : St :=
  mkState (canvasRef st) (isActive st) (isDrawing st) v (lineWidth st)
    (lineStyle st) (metrics st) (lastPos st) (drawStartTime st)
    (undoStack st) (redoStack st) (loading st).

Definition set_metrics (v : DrawingMetrics) (st : St) : St :=
  mkState (canvasRef st) (isActive st) (isDrawing st) (color st)
    (lineWidth st) (lineStyle st) v (lastPos st) (drawStartTime st)
    (undoStack st) (redoStack st) (loading st).

Definition set_lastPos (v : option (Q * Q)) (st : St) : St :=
  mkState (canvasRef st) (isActive st) (isDrawing st) (color st)
    (lineWidth st) (lineStyle st) (metrics st) v (drawStartTime st)
    (undoStack st) (redoStack st) (loading st).

Definition set_drawStartTime (v : Q) (st : St) : St :=
  mkState (canvasRef st) (isActive st) (isDrawing st) (color st)
    (lineWidth st) (lineStyle st) (metrics st) (lastPos st) v
    (undoStack st) (redoStack st) (loading st).

Definition set_undoStack (v : list string) (st : St) : St :=
  mkState (canvasRef st) (isActive st) (isDrawing st) (color st)
    (lineWidth st) (lineStyle st) (metrics st) (lastPos st)
    (drawStartTime st) v (redoStack st) (loading st).

Definition set_redoStack (v : list string) (st : St) : St :=
  mkState (canvasRef st) (isActive st) (isDrawing st) (color st)
    (lineWidth st) (lineStyle st) (metrics st) (lastPos st)
    (drawStartTime st) (undoStack st) v (loading st).

Definition set_loading (v : list string) (st : St) : St :=
  mkState (canvasRef st) (isActive st) (isDrawing st) (color st)
    (lineWidth st) (lineStyle st) (metrics st) (lastPos st)
    (drawStartTime st) (undoStack st) (redoStack st) v.

(** Drawing on the canvas element, when there is one. *)
Definition paint (f : Surface -> Surface) (st : St) : St :=
  match canvasRef st with
  | Some cv => set_canvasRef (Some (mkCanvas (ctx2d cv) (f (surface cv)))) st
  | None => st
  end.

Definition set_strokeCount (v : Q) (m : DrawingMetrics) :=
  mkMetrics v (lastStrokeTime m) (hesitationSeconds m) (totalDrawingTime m)
    (clearCount m) (undoCount m) (averageSpeed m).
Definition set_lastStrokeTime (v : Q) (m : DrawingMetrics) :=
  mkMetrics (strokeCount m) v (hesitationSeconds m) (totalDrawingTime m)
    (clearCount m) (undoCount m) (averageSpeed m).
Definition set_hesitationSeconds (v : Q) (m : DrawingMetrics) :=
  mkMetrics (strokeCount m) (lastStrokeTime m) v (totalDrawingTime m)
    (clearCount m) (undoCount m) (averageSpeed m).
Definition set_totalDrawingTime (v : Q) (m : DrawingMetrics) :=
  mkMetrics (strokeCount m) (lastStrokeTime m) (hesitationSeconds m) v
    (clearCount m) (undoCount m) (averageSpeed m).
Definition set_clearCount (v : Q) (m : DrawingMetrics) :=
  mkMetrics (strokeCount m) (lastStrokeTime m) (hesitationSeconds m)
    (totalDrawingTime m) v (undoCount m) (averageSpeed m).
Definition set_undoCount (v : Q) (m : DrawingMetrics) :=
  mkMetrics (strokeCount m) (lastStrokeTime m) (hesitationSeconds m)
    (totalDrawingTime m) (clearCount m) v (averageSpeed m).
Definition set_averageSpeed (v : Q) (m : DrawingMetrics) :=
  mkMetrics (strokeCount m) (lastStrokeTime m) (hesitationSeconds m)
    (totalDrawingTime m) (clearCount m) (undoCount m) v.

(** *** The component at mount time: [useRef] and [useState] initial
    values; [now] is [Date.now()]. *)
Definition mount (cv : option (CanvasEl Surface)) (active : bool) (now : Z) : St :=
  mkState cv active false "#ffffff"%string 5 solid
    (mkMetrics 0 (inject_Z now) 0 0 0 0 0)
    None 0 [] [] [].

(** *** saveState *)
Definition saveState (st : St) : St :=
  match canvasRef st with
  | None => st
  | Some cv =>
      let dataUrl := toDataURL (surface cv) in
      let pushed := JS.push (undoStack st) dataUrl in
      let kept := if (MAX_HISTORY <? List.length pushed)%nat
                  then JS.shift pushed else pushed in
      set_redoStack [] (set_undoStack kept st)
  end.

(** *** restoreState: the image is created and its source set; the
    drawing happens in [img_onload]. *)
Definition restoreState (dataUrl : string) (st : St) : St :=
  match canvasRef st with
  | None => st
  | Some cv =>
      if ctx2d cv then set_loading (loading st ++ [dataUrl]) st
      else st
  end.

(** [img.onload] of the [n]-th image still loading, on the canvas element
    the component still holds. *)
Definition img_onload (n : nat) (st : St) : St :=
  match nth_error (loading st) n with
  | None => st
  | Some dataUrl =>
      paint (fun s => drawImage dataUrl (fillBackground s))
        (set_loading (firstn n (loading st) ++ skipn (S n) (loading st)) st)
  end.

(** *** The imperative handle *)

Definition clear (st : St) : St :=
  let st1 := saveState st in
  let m := metrics st1 in
  let st2 := set_metrics (set_clearCount (clearCount m + 1) m) st1 in
  match canvasRef st2 with
  | Some cv => if ctx2d cv then paint fillBackground st2 else st2
  | None => st2
  end.

Definition setColor (newColor : string) (st : St) : St :=
  set_color newColor st.

Definition undo (st : St) : St :=
  if (List.length (undoStack st) =? 0)%nat then st
  else
    match canvasRef st with
    | None => st
    | Some cv =>
        let m := metrics st in
        let st1 := set_metrics (set_undoCount (undoCount m + 1) m) st in
        let currentState := toDataURL (surface cv) in
        let st2 := set_redoStack (JS.push (redoStack st1) currentState) st1 in
        match JS.pop (undoStack st2) with
        | None => st2
        | Some (rest, previousState) =>
            restoreState previousState (set_undoStack rest st2)
        end
  end.

Definition redo (st : St) : St :=
  if (List.length (redoStack st) =? 0)%nat then st
  else
    match canvasRef st with
    | None => st
    | Some cv =>
        let currentState := toDataURL (surface cv) in
        let st1 := set_undoStack (JS.push (undoStack st) currentState) st in
        match JS.pop (redoStack st1) with
        | None => st1
        | Some (rest, nextState) =>
            restoreState nextState (set_redoStack rest st1)
        end
  end.

Definition getSnapshot (st : St) : JS.value :=
  match canvasRef st with
  | None => JS.Str ""
  | Some cv => JS.index1 (JS.split_comma (toDataURL_jpeg (surface cv)))
  end.

(** [getMetrics] returns the copy and leaves the stored metrics as it
    changed them; [now] is [Date.now()]. *)
Definition getMetrics (now : Z) (st : St) : DrawingMetrics * St :=
  let st' :=
    if negb (isDrawing st) then
      let m := metrics st in
      set_metrics
        (set_hesitationSeconds ((inject_Z now - lastStrokeTime m) / 1000) m) st
    else st in
  (metrics st', st').

(** *** Pointer handlers *)

Definition position (rect : Rect) (e : PointerEvent) : Q * Q :=
  match e with
  | TouchEvent (cx, cy) _ => (cx - left rect, cy - top rect)
  | MouseEvent cx cy => (cx - left rect, cy - top rect)
  end.

Definition penOf (st : St) : Pen :=
  let lw := lineWidth st in
  mkPen lw (color st)
    match lineStyle st with
    | dashed => [lw * 3; lw * 2]
    | dotted => [1; lw * 2]
    | solid => []
    end.

Section WithSqrt.

(** [Math.sqrt] *)
Variable Math_sqrt : Q -> Q.

Definition distance (p q : Q * Q) : Q :=
  Math_sqrt (JS.Math_pow2 (fst q - fst p) + JS.Math_pow2 (snd q - snd p)).

Definition draw (rect : Rect) (e : PointerEvent) (st : St) : St :=
  if negb (isDrawing st) || negb (isActive st) then st
  else
    match canvasRef st with
    | None => st
    | Some cv =>
        if negb (ctx2d cv) then st
        else
          let xy := position rect e in
          let st1 :=
            match lastPos st with
            | Some lp =>
                let dist := distance lp xy in
                let m := metrics st in
                set_metrics
                  (set_averageSpeed ((averageSpeed m + dist) / 2) m) st
            | None => st
            end in
          let st2 := set_lastPos (Some xy) st1 in
          paint (strokeTo (penOf st2) xy) st2
    end.

(** [setIsDrawing(true)] takes effect with the next render: the call
    of [draw] inside still sees the old [isDrawing]. *)
Definition startDrawing (rect : Rect) (e : PointerEvent) (now : Z) (st : St) : St :=
  if negb (isActive st) then st
  else
    let st1 := saveState st in
    let m := metrics st1 in
    let st2 := set_metrics (set_strokeCount (strokeCount m + 1) m) st1 in
    let st3 := set_drawStartTime (inject_Z now) st2 in
    let st4 := draw rect e st3 in
    set_isDrawing true st4.

End WithSqrt.

(** [now1] and [now2] are the two readings of [Date.now()]. *)
Definition stopDrawing (now1 now2 : Z) (st : St) : St :=
  let st1 :=
    if isDrawing st then
      let m := set_lastStrokeTime (inject_Z now1) (metrics st) in
      set_metrics
        (set_totalDrawingTime
           (totalDrawingTime m + (inject_Z now2 - drawStartTime st)) m) st
    else st in
  let st2 := set_lastPos None st1 in
  let st3 :=
    match canvasRef st2 with
    | Some cv => if ctx2d cv then paint beginPath st2 else st2
    | None => st2
    end in
  set_isDrawing false st3.

(** *** Runs of the component: each action is one handler (or one call
    through the imperative handle) run to completion. *)
Inductive Action :=
  | onPointerDown (rect : Rect) (e : PointerEvent) (now : Z)
  | onPointerMove (rect : Rect) (e : PointerEvent)
  | onPointerUp (now1 now2 : Z)
  | callSaveState
  | callClear
  | callSetColor (newColor : string)
  (** the stroke-size slider and the line-style buttons *)
  | onLineWidth (width : Q)
  | onLineStyle (style : LineStyle)
  | callUndo
  | callRedo
  | callGetMetrics (now : Z)
  | imageLoaded (n : nat)
  (** the canvas element is attached, detached or changed from outside *)
  | refChanged (cv : option (CanvasEl Surface))
  (** the parent re-renders with another [isActive] *)
  | propChanged (active : bool).

Definition step (Math_sqrt : Q -> Q) (a : Action) (st : St) : St :=
  match a with
  | onPointerDown rect e now => startDrawing Math_sqrt rect e now st
  | onPointerMove rect e => draw Math_sqrt rect e st
  | onPointerUp now1 now2 => stopDrawing now1 now2 st
  | callSaveState => saveState st
  | callClear => clear st
  | callSetColor c => setColor c st
  | onLineWidth width =>
      mkState (canvasRef st) (isActive st) (isDrawing st) (color st) width
        (lineStyle st) (metrics st) (lastPos st) (drawStartTime st)
        (undoStack st) (redoStack st) (loading st)
  | onLineStyle style =>
      mkState (canvasRef st) (isActive st) (isDrawing st) (color st)
        (lineWidth st) style (metrics st) (lastPos st) (drawStartTime st)
        (undoStack st) (redoStack st) (loading st)
  | callUndo => undo st
  | callRedo => redo st
  | callGetMetrics now => snd (getMetrics now st)
  | imageLoaded n => img_onload n st
  | refChanged cv => set_canvasRef cv st
  | propChanged active =>
      mkState (canvasRef st) active (isDrawing st) (color st) (lineWidth st)
        (lineStyle st) (metrics st) (lastPos st) (drawStartTime st)
        (undoStack st) (redoStack st) (loading st)
  end.

Definition run (Math_sqrt : Q -> Q) (acts : list Action) (st : St) : St :=
  fold_left (fun s a => step Math_sqrt a s) acts st.

(** [averageSpeed] as it stands after each of a series of [draw] calls. *)
Fixpoint speeds (Math_sqrt : Q -> Q) (moves : list (Rect * PointerEvent))
    (st : St) : list Q :=
  match moves with
  | [] => []
  | (rect, e) :: rest =>
      let st' := draw Math_sqrt rect e st in
      averageSpeed (metrics st') :: speeds Math_sqrt rest st'
  end.

(** The canvas positions of a series of pointer events, and the distances
between consecutive positions, the first one measured from [p]. *)
Definition samples (moves : list (Rect * PointerEvent)) : list (Q * Q) :=
  map (fun m => position (fst m) (snd m)) moves.

Fixpoint distances (Math_sqrt : Q -> Q) (p : Q * Q) (pts : list (Q * Q)) : list Q :=
  match pts with
  | [] => []
  | q :: rest => distance Math_sqrt p q :: distances Math_sqrt q rest
  end.

(** The same series of calls, keeping only the final state. *)
Definition draws (Math_sqrt : Q -> Q) (moves : list (Rect * PointerEvent))
    (st : St) : St :=
  fold_left (fun s m => draw Math_sqrt (fst m) (snd m) s) moves st.

(** The distance a call of [draw] feeds into [averageSpeed]: there is one
when the call passes its guards and the stroke has a previous
position. *)
Definition measured (Math_sqrt : Q -> Q) (rect : Rect) (e : PointerEvent)
    (st : St) : option Q :=
  if negb (isDrawing st) || negb (isActive st) then None
  else
    match canvasRef st with
    | None => None
    | Some cv =>
        if negb (ctx2d cv) then None
        else
          match lastPos st with
          | Some lp => Some (distance Math_sqrt lp (position rect e))
          | None => None
          end
    end.

(** The same for an action ([startDrawing] calls [draw] once). *)
Definition measured_by (Math_sqrt : Q -> Q) (a : Action) (st : St) : option Q :=
  match a with
  | onPointerMove rect e => measured Math_sqrt rect e st
  | onPointerDown rect e _ =>
      if negb (isActive st) then None else measured Math_sqrt rect e st
  | _ => None
  end.

(** The distances fed into [averageSpeed] over a run, in order. *)
Fixpoint updates (Math_sqrt : Q -> Q) (acts : list Action) (st : St) : list Q :=
  match acts with
  | [] => []
  | a :: rest =>
      let later := updates Math_sqrt rest (step Math_sqrt a st) in
      match measured_by Math_sqrt a st with
      | Some d => d :: later
      | None => later
      end
  end.

(** The two stacks together never hold more than [MAX_HISTORY] entries. *)
Definition within_history (st : St) : Prop :=
  (List.length (undoStack st) + List.length (redoStack st) <= MAX_HISTORY)%nat.

(** The last [n] elements of an array. *)
Definition lastn {A} (n : nat) (l : list A) : list A :=
  skipn (List.length l - n) l.

(** The snapshots taken by [saveState] when the surface shows, in turn,
    each element of [shown]. *)
Definition saveEach (shown : list Surface) (st : St) : St :=
  fold_left
    (fun s b => saveState (paint (fun _ => b) s)) shown st.

(** Pointer presses and moves, the events an inactive canvas ignores. *)
Definition press_or_move (a : Action) : bool :=
  match a with
  | onPointerDown _ _ _ | onPointerMove _ _ => true
  | _ => false
  end.

(** The actions whose handlers write to the stacks. *)
Definition writes_history (a : Action) : bool :=
  match a with
  | onPointerDown _ _ _ | callSaveState | callClear | callUndo | callRedo => true
  | _ => false
  end.

(** The readings of [Date.now()] along a run are in order, none of them
    before [t]. *)
Fixpoint chronological (t : Z) (acts : list Action) : Prop :=
  match acts with
  | [] => True
  | onPointerDown _ _ now :: rest => (t <= now)%Z /\ chronological now rest
  | onPointerUp now1 now2 :: rest =>
      (t <= now1)%Z /\ (now1 <= now2)%Z /\ chronological now2 rest
  | callGetMetrics now :: rest => (t <= now)%Z /\ chronological now rest
  | _ :: rest => chronological t rest
  end.

(** The clock after an action, and after a run. *)
Definition clock_after (t : Z) (a : Action) : Z :=
  match a with
  | onPointerDown _ _ now => now
  | onPointerUp _ now2 => now2
  | callGetMetrics now => now
  | _ => t
  end.

Definition clock_at (t : Z) (acts : list Action) : Z :=
  fold_left clock_after acts t.

(** At clock reading [t] the metrics are non-negative and no stored time
    lies in the future. *)
Definition in_time (t : Z) (st : St) : Prop :=
  non_negative (metrics st) /\
  lastStrokeTime (metrics st) <= inject_Z t /\
  drawStartTime st <= inject_Z t.

(** One stroke: the press, the moves, the release. *)
Definition stroke (down : Rect * PointerEvent) (t0 : Z)
    (moves : list (Rect * PointerEvent)) (t1 t2 : Z) : list Action :=
  onPointerDown (fst down) (snd down) t0
  :: map (fun m => onPointerMove (fst m) (snd m)) moves
  ++ [onPointerUp t1 t2].

End Component.

Arguments Action Surface : clear implicits.

End DrawingCanvas.

(** ** App: the payload sent with each frame *)

Module App.

Import DrawingCanvas.

Inductive Phase := live | finished.
Inductive Trend := rising | falling | stable.

Record TimeInfo := mkTime { remaining_pct : Q }.
Record Confidence := mkConfidence {
  confidence_score : Q;
  trend : Trend;
  hesitation_seconds : Q;
  redraw_rate : Q
}.
Record Efficiency := mkEfficiency {
  efficiency_score : Q;
  panic_detected : bool
}.
Record Clarity := mkClarity {
  clarity_score : Q;
  recognizable_early : bool
}.
Record Commentary := mkCommentary {
  cooldown_active : bool;
  comments_used : Q
}.
Record MetricsPayload := mkPayload {
  phase : Phase;
  time : TimeInfo;
  confidence : Confidence;
  efficiency : Efficiency;
  clarity : Clarity;
  commentary : Commentary
}.

(** [canvasMetrics] is the result of [canvasRef1.current?.getMetrics()];
    [timeLeft], [commentCount] and [lastCommentTime] are the component's
    state and ref, [now] is [Date.now()]. *)
Definition getMetricsPayload (ph : Phase) (canvasMetrics : option DrawingMetrics)
    (timeLeft : Q) (now : Z) (lastCommentTime commentCount : Q)
    : option MetricsPayload :=
  match canvasMetrics with
  | None => None
  | Some cm =>
      let time_remaining_pct := timeLeft / 60 in
      let confidence_score :=
        JS.Math_min 1 (JS.Math_max 0
          ((strokeCount cm / 40) + (averageSpeed cm / 200)
           - (hesitationSeconds cm / 10))) in
      let efficiency_score :=
        JS.Math_min 1 (JS.Math_max 0
          ((strokeCount cm / (totalDrawingTime cm / 1000 + 1)) * 5)) in
      let clarity_score :=
        JS.Math_min 1 (JS.Math_max 0 (strokeCount cm / 25)) in
      Some (mkPayload ph
        (mkTime time_remaining_pct)
        (mkConfidence
           (JS.toFixed2 confidence_score)
           (if JS.gtb (averageSpeed cm) 60 then rising
            else if JS.gtb (hesitationSeconds cm) 3 then falling
            else stable)
           (hesitationSeconds cm)
           (JS.toFixed2 (undoCount cm / (strokeCount cm + 1))))
        (mkEfficiency
           (JS.toFixed2 efficiency_score)
           (JS.ltb time_remaining_pct (15 # 100)
            && JS.gtb (averageSpeed cm) 120))
        (mkClarity
           (JS.toFixed2 clarity_score)
           (JS.gtb (strokeCount cm) 15))
        (mkCommentary
           (JS.ltb (inject_Z now - lastCommentTime) 5000)
           commentCount))
  end.

(** *** The debug overlay *)

(** The block characters U+2588 and U+2591, as UTF-8 bytes. *)
Definition full_block : string :=
  String (ascii_of_nat 226) (String (ascii_of_nat 150)
    (String (ascii_of_nat 136) EmptyString)).

Definition light_shade : string :=
  String (ascii_of_nat 226) (String (ascii_of_nat 150)
    (String (ascii_of_nat 145) EmptyString)).

(** The two parts of the bar [MetricRow] draws for a value: [None] when
    one of the two [repeat] calls throws.  Label and printed value are
    left out. *)
Definition MetricRow (value : Q) : option (string * string) :=
  let bars := JS.Math_round (value * 10) in
  match JS.String_repeat full_block bars with
  | None => None
  | Some filled =>
      match JS.String_repeat light_shade (10 - bars) with
      | None => None
      | Some unfilled => Some (filled, unfilled)
      end
  end.

Definition DEV_MODE : bool := true.

(** The bars of the overlay: [None] when it renders nothing. *)
Definition DebugOverlay (metrics : option MetricsPayload)
    : option (list (option (string * string))) :=
  if negb DEV_MODE then None
  else
    match metrics with
    | None => None
    | Some m =>
        Some [MetricRow (confidence_score (confidence m));
              MetricRow (efficiency_score (efficiency m));
              MetricRow (clarity_score (clarity m))]
    end.

(** *** The countdown *)

Inductive GameState := LOBBY | PLAYING | RESULTS | WAITING.

Inductive GameMode := SOLO | BATTLE | ONLINE.

(** One firing of the one-second interval, which exists only while the
    game is being played: at [prev <= 1] the game ends ([endGame] sets
    [RESULTS]; what it sends is left out) and the time is 0. *)
Definition tick (gameState : GameState) (timeLeft : Q) : GameState * Q :=
  match gameState with
  | PLAYING =>
      if Qle_bool timeLeft 1 then (RESULTS, 0) else (PLAYING, timeLeft - 1)
  | _ => (gameState, timeLeft)
  end.

Fixpoint ticks (n : nat) (gameState : GameState) (timeLeft : Q) : GameState * Q :=
  match n with
  | O => (gameState, timeLeft)
  | S n' => let (g, t) := tick gameState timeLeft in ticks n' g t
  end.

(** *** Microphone samples *)

(** [int16[i] = inputData[i] * 32768] *)
Definition pcm16 (sample : Q) : Z := JS.ToInt16 (sample * 32768).

(** *** Playing the commentary *)

(** A source as [onmessage] starts it: [requested] is the time passed to
    [source.start()], [calledAt] the output context's clock at that call,
    [duration] the length of the buffer. *)
Record Source := mkSource {
  requested : Q;
  calledAt : Q;
  duration : Q
}.

(** A source whose requested time is already past starts at once. *)
Definition begins (s : Source) : Q := JS.Math_max (requested s) (calledAt s).

Definition ends (s : Source) : Q := begins s + duration s.

(** [nextStartTimeRef], the sources started so far (oldest first),
    [lastCommentTime] and [commentCount]. *)
Record Playback := mkPlayback {
  nextStartTime : Q;
  sources : list Source;
  lastCommentTime : Q;
  commentCount : Q
}.

(** The steps of [onmessage] for a message with audio, on either side of
    its [await], and [cleanupSession]. *)
Inductive AudioStep :=
  (** the audio arrives: [now] is [Date.now()], [currentTime] the output
      context's clock *)
  | audioArrived (now : Z) (currentTime : Q)
  (** [decodeAudioData] has resolved with a buffer of this duration, and
      the source is started while the context's clock shows [currentTime] *)
  | audioDecoded (seconds : Q) (currentTime : Q)
  | cleanupSession.

Definition audio_step (a : AudioStep) (p : Playback) : Playback :=
  match a with
  | audioArrived now currentTime =>
      mkPlayback (JS.Math_max (nextStartTime p) currentTime) (sources p)
        (inject_Z now) (commentCount p + 1)
  | audioDecoded seconds currentTime =>
      mkPlayback (nextStartTime p + seconds)
        (sources p ++ [mkSource (nextStartTime p) currentTime seconds])
        (lastCommentTime p) (commentCount p)
  | cleanupSession =>
      mkPlayback 0 [] (lastCommentTime p) (commentCount p)
  end.

Definition audio_run (steps : list AudioStep) (p : Playback) : Playback :=
  fold_left (fun q a => audio_step a q) steps p.

(** [startGame] resets the counters and cleans up before connecting. *)
Definition fresh_playback : Playback := mkPlayback 0 [] 0 0.

Definition is_arrival (a : AudioStep) : bool :=
  match a with
  | audioArrived _ _ => true
  | _ => false
  end.

(** Every buffer has a duration that is not negative. *)
Fixpoint durations_ok (steps : list AudioStep) : Prop :=
  match steps with
  | [] => True
  | audioDecoded d _ :: rest => 0 <= d /\ durations_ok rest
  | _ :: rest => durations_ok rest
  end.

(** The requested times form a queue: each source is requested for the
    requested end of the one before it, or later, and the last requested
    end is no later than [limit]. *)
Fixpoint queued (clips : list Source) (limit : Q) : Prop :=
  match clips with
  | [] => True
  | a :: rest =>
      requested a + duration a <= match rest with
                                  | [] => limit
                                  | b :: _ => requested b
                                  end /\
      queued rest limit
  end.

(** A source is still playing when the next one begins by no more than the
    time it began late itself. *)
Fixpoint late_overlap_only (clips : list Source) : Prop :=
  match clips with
  | [] => True
  | a :: rest =>
      match rest with
      | [] => True
      | b :: _ => ends a - begins b <= begins a - requested a
      end /\
      late_overlap_only rest
  end.

(** *** The frame sent to the model *)

(** What [stitchCanvases] resolves to: nothing, the first canvas alone, or
    the two snapshots drawn side by side (should both images load). *)
Inductive Frame :=
  | NoFrame
  | OneCanvas (snap1 : string)
  | TwoCanvases (snap1 snap2 : string).

(** [snap1] and [battleSnap] are the results of
    [canvasRef1.current?.getSnapshot()] and
    [canvasRef2.current?.getSnapshot()]. *)
Definition stitchCanvases (gameMode : GameMode) (snap1 battleSnap : option string)
    (remoteCanvasData : option string) : Frame :=
  let snap2 :=
    match gameMode with
    | BATTLE => battleSnap
    | ONLINE => remoteCanvasData
    | SOLO => None
    end in
  match snap1 with
  | None => NoFrame
  | Some s1 =>
      if JS.falsy snap1 then NoFrame
      else
        match snap2 with
        | None => OneCanvas s1
        | Some s2 => if JS.falsy snap2 then OneCanvas s1 else TwoCanvases s1 s2
        end
  end.

(** [ref.current?.getSnapshot()] for a canvas handle that may be null. *)
Definition snapshot_of {Surface : Type} `{CanvasAPI Surface}
    (handle : option (State Surface)) : option string :=
  match handle with
  | None => None
  | Some st => JS.optional (getSnapshot st)
  end.

(** *** Rooms *)

Inductive Difficulty := Easy | Medium | Hard.

Record DrawingPrompt := mkPrompt {
  prompt_id : string;
  label : string;
  difficulty : Difficulty
}.

Definition PROMPTS : list DrawingPrompt :=
  [mkPrompt "1" "A futuristic cat" Easy;
   mkPrompt "2" "A spaceship landing on Mars" Medium;
   mkPrompt "3" "A slice of pizza eating a human" Hard;
   mkPrompt "4" "An elephant on a surfboard" Medium;
   mkPrompt "5" "A robot playing the piano" Easy;
   mkPrompt "6" "A haunted toaster" Hard]%string.

Record Player := mkPlayer {
  player_id : string;
  name : string;
  score : Q;
  isReady : bool;
  canvasData : option string
}.

(** The messages the app posts, with the payload each one carries; the
    payload of [PLAYER_JOINED] is empty or [{ isHost: true, prompt }]. *)
Inductive Message :=
  | PLAYER_JOINED (senderId : string) (hostPrompt : option DrawingPrompt)
  | GAME_START (senderId : string) (prompt : DrawingPrompt)
  | SYNC_CANVAS (senderId : string) (data : string)
  | SYNC_SCORE (senderId : string) (newScore : Q)
  | GAME_OVER (senderId : string)
  | HEARTBEAT (senderId : string).

(** What a handler does besides returning: state setters, a sound, a
    message posted on the channel, and the calls of [startGame] and
    [endGame], which are not followed further. *)
Inductive Effect :=
  | setOpponent (p : Player)
  | setCurrentPrompt (p : DrawingPrompt)
  | setRemoteCanvasData (data : string)
  | setScore2 (newScore : Q)
  | playPoint
  | postMessage (m : Message)
  | startGame (isFollower : bool)
  | endGame.

(** The state [handleMessage] closes over (the dependencies of its
    [useCallback]). *)
Record Closure := mkClosure {
  c_isHost : bool;
  c_opponent : option Player;
  c_currentPrompt : DrawingPrompt;
  c_gameState : GameState
}.

Section Rooms.

(** The random id of this page. *)
Variable SESSION_ID : string.

Definition handleMessage (c : Closure) (msg : Message) : list Effect :=
  match msg with
  | PLAYER_JOINED senderId hostPrompt =>
      if c_isHost c && match c_opponent c with None => true | Some _ => false end
      then
        [setOpponent (mkPlayer senderId "Opponent" 0 true None);
         playPoint;
         postMessage (PLAYER_JOINED SESSION_ID (Some (c_currentPrompt c)))]
      else
        match hostPrompt with
        | Some prompt =>
            if negb (c_isHost c) then
              [setOpponent (mkPlayer senderId "Host" 0 true None);
               setCurrentPrompt prompt;
               playPoint]
            else []
        | None => []
        end
  | GAME_START _ prompt =>
      if negb (c_isHost c) then [setCurrentPrompt prompt; startGame true]
      else []
  | SYNC_CANVAS senderId data =>
      if negb (String.eqb senderId SESSION_ID) then [setRemoteCanvasData data]
      else []
  | SYNC_SCORE senderId newScore =>
      if negb (String.eqb senderId SESSION_ID) then [setScore2 newScore]
      else []
  | GAME_OVER _ =>
      match c_gameState c with
      | PLAYING => [endGame]
      | _ => []
      end
  | HEARTBEAT _ => []
  end.

(** The state of the app that rooms touch; [channel] is the open
    BroadcastChannel: its name, and the closure of the [handleMessage] its
    [onmessage] calls. *)
Record Online := mkOnline {
  isHost : bool;
  opponent : option Player;
  currentPrompt : DrawingPrompt;
  gameState : GameState;
  roomCode : string;
  remoteCanvasData : option string;
  scores : Q * Q;
  channel : option (string * Closure)
}.

(** The app as it loads. *)
Definition loaded : Online :=
  mkOnline false None (nth 0 PROMPTS (mkPrompt "" "" Easy)) LOBBY "" None (0, 0) None.

(** What the handlers of the current render close over. *)
Definition closure_of (s : Online) : Closure :=
  mkClosure (isHost s) (opponent s) (currentPrompt s) (gameState s).

(** [connectToRoom]: the new channel's [onmessage] calls the
    [handleMessage] of the render in which [connectToRoom] runs; the
    setters take effect with the next render. *)
Definition connectToRoom (code : string) (asHost : bool) (s : Online)
    : Online * list Effect :=
  (mkOnline asHost (opponent s) (currentPrompt s) WAITING code
     (remoteCanvasData s) (scores s)
     (Some (("sketch-master-" ++ code)%string, closure_of s)),
   [postMessage (PLAYER_JOINED SESSION_ID None)]).

Definition apply_effect (s : Online) (e : Effect) : Online :=
  match e with
  | setOpponent p =>
      mkOnline (isHost s) (Some p) (currentPrompt s) (gameState s) (roomCode s)
        (remoteCanvasData s) (scores s) (channel s)
  | setCurrentPrompt p =>
      mkOnline (isHost s) (opponent s) p (gameState s) (roomCode s)
        (remoteCanvasData s) (scores s) (channel s)
  | setRemoteCanvasData data =>
      mkOnline (isHost s) (opponent s) (currentPrompt s) (gameState s)
        (roomCode s) (Some data) (scores s) (channel s)
  | setScore2 newScore =>
      mkOnline (isHost s) (opponent s) (currentPrompt s) (gameState s)
        (roomCode s) (remoteCanvasData s) (fst (scores s), newScore) (channel s)
  | _ => s
  end.

(** A message arrives on the open channel. *)
Definition receive (msg : Message) (s : Online) : Online * list Effect :=
  match channel s with
  | None => (s, [])
  | Some (_, c) =>
      let effects := handleMessage c msg in
      (fold_left apply_effect effects s, effects)
  end.

(** A series of messages; the effects are collected in order. *)
Fixpoint receive_all (msgs : list Message) (s : Online) : Online * list Effect :=
  match msgs with
  | [] => (s, [])
  | msg :: rest =>
      let (s1, effects1) := receive msg s in
      let (s2, effects2) := receive_all rest s1 in
      (s2, effects1 ++ effects2)
  end.

(** A join request: [PLAYER_JOINED] with the empty payload. *)
Definition join_request (msg : Message) : bool :=
  match msg with
  | PLAYER_JOINED _ None => true
  | _ => false
  end.

End Rooms.

End App.

(** ** The smoothing recurrence, as the specification words it *)

Module Spec.

(** [a_n = (a_(n-1) + d_n) / 2]: the values [a_1, a_2, ...] for the
    distances [d_1, d_2, ...], from the start value [a_0]. *)
Fixpoint smoothing (a0 : Q) (ds : list Q) : list Q :=
  match ds with
  | [] => []
  | d :: ds' => let a1 := (a0 + d) / 2 in a1 :: smoothing a1 ds'
  end.

End Spec.

(** ** A concrete canvas, for running the component *)

Module Demo.

Import DrawingCanvas.

(** A surface is known by the text of its PNG data URL; painting over it
    with the background forgets it, drawing an image shows that image, a
    stroke adds a mark. *)
#[global] Instance text_canvas : CanvasAPI string := {
  toDataURL := fun s => s;
  toDataURL_jpeg := fun s => ("data:image/jpeg;base64," ++ s)%string;
  fillBackground := fun _ => "bg"%string;
  drawImage := fun url _ => url;
  strokeTo := fun _ _ s => (s ++ "~")%string;
  beginPath := fun s => s
}.

(** A square root that is exact on squares of rationals. *)
Definition sqrt (x : Q) : Q :=
  inject_Z (Z.sqrt (Qnum x * Zpos (Qden x))) / inject_Z (Zpos (Qden x)).

Definition origin : Rect := mkRect 0 0.

Definition canvas (s : string) : option (CanvasEl string) :=
  Some (mkCanvas true s).

(** A mounted, active component showing [s], in the middle of a stroke
    or not. *)
Definition showing (s : string) (drawing : bool) (undos redos : list string)
    : State string :=
  mkState (canvas s) true drawing "#ffffff"%string 5 solid
    (mkMetrics 0 0 0 0 0 0 0) None 0 undos redos [].

(** The same component in the middle of a stroke that started at the
    origin, and three moves along the x axis, 10, 20 and 30 apart. *)
Definition mid_stroke : State string :=
  mkState (canvas "") true true "#ffffff"%string 5 solid
    (mkMetrics 1 0 0 0 0 0 0) (Some (0, 0)) 0 [""%string] [] [].

Definition three_moves : list (Rect * PointerEvent) :=
  [(origin, MouseEvent 10 0); (origin, MouseEvent 30 0);
   (origin, TouchEvent (60, 0) [])].

(** Metrics of a player ten strokes in. *)
Definition some_metrics : DrawingMetrics :=
  mkMetrics 10 5000 2 3000 1 1 80.

(** Two clears and two undos on a fresh canvas. *)
Definition two_undos : State string :=
  run sqrt [callClear; callClear; callUndo; callUndo]
    (mount (canvas "") true 0).


(** A component whose parent has switched it off. *)
Definition switched_off : State string :=
  mkState (canvas "c") false false "#ffffff"%string 5 solid
    (mkMetrics 2 0 0 0 0 0 7) None 0 ["a"%string] [] [].

(** A press at the origin at time 10, three moves and the release at time
    20, read at 30; and the same without the release and the reading. *)
Definition one_stroke : list (Action string) :=
  stroke (origin, MouseEvent 0 0) 10
    ((origin, MouseEvent 0 0) :: three_moves) 20 20
  ++ [callGetMetrics 30].

Definition pressed_and_moved : list (Action string) :=
  onPointerDown origin (MouseEvent 0 0) 10
  :: map (fun m => onPointerMove (fst m) (snd m))
       ((origin, MouseEvent 0 0) :: three_moves).

(** Metrics of the same player a little later. *)
Definition later_metrics : DrawingMetrics :=
  mkMetrics 12 5000 1 3000 1 1 90.

(** Two pieces of commentary, the second arriving while the first plays. *)
Definition two_pieces : list App.AudioStep :=
  [App.audioArrived 1000 1; App.audioDecoded 2 (3 # 2);
   App.audioArrived 2000 2; App.audioDecoded 3 (5 # 2)].

(** Fifty-one surfaces, told apart by their number of marks. *)
Fixpoint marks (n : nat) : string :=
  match n with
  | O => EmptyString
  | S n' => String "~"%char (marks n')
  end.

Definition fifty_one : list string := map marks (seq 1 51).

End Demo.

(** * Properties *)

(** ** Numbers *)

Section Numbers.

Lemma ltb_lt (x y : Q) : JS.ltb x y = true <-> x < y.
Proof.
  unfold JS.ltb. rewrite negb_true_iff. split; intro Hxy.
  - apply Qnot_le_lt. intro Hle. apply Qle_bool_iff in Hle. congruence.
  - destruct (Qle_bool y x) eqn:E; [|reflexivity].
    apply Qle_bool_iff in E. exfalso. exact (Qlt_not_le _ _ Hxy E).
Qed.

Lemma gtb_gt (x y : Q) : JS.gtb x y = true <-> y < x.
Proof. unfold JS.gtb. apply ltb_lt. Qed.

Lemma ltb_ge (x y : Q) : JS.ltb x y = false <-> y <= x.
Proof.
  unfold JS.ltb. rewrite negb_false_iff. apply Qle_bool_iff.
Qed.

(** [Math.min(1, Math.max(0, x))] is a clamp to the unit interval. *)
Lemma clamp_unit (x : Q) :
  0 <= JS.Math_min 1 (JS.Math_max 0 x) <= 1.
Proof.
  unfold JS.Math_min, JS.Math_max. split.
  - apply Q.min_glb; [discriminate | apply Q.le_max_l].
  - apply Q.le_min_l.
Qed.

Lemma nearest_hundredth_nonneg (x : Q) :
  0 <= x -> (0 <= JS.nearest_hundredth x)%Z.
Proof.
  intro Hx. unfold JS.nearest_hundredth.
  apply (Qfloor_resp_le 0 (x * 100 + (1 # 2))). lra.
Qed.

Lemma nearest_hundredth_le_100 (x : Q) :
  x <= 1 -> (JS.nearest_hundredth x <= 100)%Z.
Proof.
  intro Hx. unfold JS.nearest_hundredth.
  apply (Qfloor_resp_le (x * 100 + (1 # 2)) (201 # 2)). lra.
Qed.

Lemma toFixed2_nonneg (x : Q) : 0 <= x -> 0 <= JS.toFixed2 x.
Proof.
  intro Hx. unfold JS.toFixed2.
  destruct (JS.ltb x 0) eqn:Es.
  - apply ltb_lt in Es. lra.
  - destruct (Qle_bool _ x); [exact Hx|].
    pose proof (nearest_hundredth_nonneg x Hx) as Hn.
    rewrite Zle_Qle in Hn. change (inject_Z 0) with 0 in Hn.
    apply Qle_shift_div_l; [reflexivity | lra].
Qed.

Lemma toFixed2_le_1 (x : Q) : 0 <= x -> x <= 1 -> JS.toFixed2 x <= 1.
Proof.
  intros H0 H1. unfold JS.toFixed2.
  destruct (JS.ltb x 0) eqn:Es.
  - apply ltb_lt in Es. lra.
  - destruct (Qle_bool _ x) eqn:Ebig.
    + exact H1.
    + pose proof (nearest_hundredth_le_100 x H1) as Hn.
      rewrite Zle_Qle in Hn. change (inject_Z 100) with 100 in Hn.
      apply Qle_shift_div_r; [reflexivity | lra].
Qed.

Lemma toFixed2_unit (x : Q) : 0 <= x <= 1 -> 0 <= JS.toFixed2 x <= 1.
Proof.
  intros [H0 H1]. split; [apply toFixed2_nonneg | apply toFixed2_le_1]; assumption.
Qed.

End Numbers.

(** ** The metrics payload *)

Section Payload.

Import DrawingCanvas App.

Variables (ph : Phase) (cm : DrawingMetrics) (timeLeft : Q) (now : Z)
  (lastCommentTime commentCount : Q).

Lemma payload_defined :
  exists p,
    getMetricsPayload ph (Some cm) timeLeft now lastCommentTime commentCount
    = Some p.
Proof. simpl. eexists. reflexivity. Qed.

Lemma redraw_quotient_nonneg :
  non_negative cm -> 0 <= undoCount cm / (strokeCount cm + 1).
Proof.
  intros (Hs & _ & _ & _ & _ & Hu & _).
  apply Qle_shift_div_l; lra.
Qed.

Lemma redraw_quotient_le_1 :
  non_negative cm -> undoCount cm <= strokeCount cm + 1 ->
  undoCount cm / (strokeCount cm + 1) <= 1.
Proof.
  intros (Hs & _ & _ & _ & _ & Hu & _) Hle.
  apply Qle_shift_div_r; lra.
Qed.

(** C2 (amended).  For metrics with non-negative fields and any remaining
    time, the confidence, efficiency and clarity scores of the payload lie
    in [0, 1].  The redraw rate is [undoCount / (strokeCount + 1)] printed
    with two decimals and is not clamped: it is never negative, and it is at
    most 1 whenever [undoCount <= strokeCount + 1]. *)
Theorem scores_in_unit_interval (p : MetricsPayload) :
  non_negative cm ->
  getMetricsPayload ph (Some cm) timeLeft now lastCommentTime commentCount
  = Some p ->
  0 <= confidence_score (confidence p) <= 1 /\
  0 <= efficiency_score (efficiency p) <= 1 /\
  0 <= clarity_score (clarity p) <= 1 /\
  redraw_rate (confidence p)
  = JS.toFixed2 (undoCount cm / (strokeCount cm + 1)) /\
  0 <= redraw_rate (confidence p) /\
  (undoCount cm <= strokeCount cm + 1 -> redraw_rate (confidence p) <= 1).
Proof.
  intros Hnn Hp. simpl in Hp. injection Hp as <-. cbn [confidence efficiency
    clarity confidence_score efficiency_score clarity_score redraw_rate].
  repeat split; try (apply toFixed2_unit, clamp_unit).
  - apply toFixed2_nonneg, redraw_quotient_nonneg, Hnn.
  - intro Hle. apply toFixed2_le_1.
    + apply redraw_quotient_nonneg, Hnn.
    + apply redraw_quotient_le_1; assumption.
Qed.

(** C8.  [panic_detected] is true exactly when the remaining share of the
    time, [timeLeft / 60], is strictly below 0.15 and [averageSpeed] is
    strictly above 120; at either boundary it is false. *)
Theorem panic_detected_iff (p : MetricsPayload) :
  getMetricsPayload ph (Some cm) timeLeft now lastCommentTime commentCount
  = Some p ->
  remaining_pct (time p) = timeLeft / 60 /\
  (panic_detected (efficiency p) = true <->
   remaining_pct (time p) < 15 # 100 /\ 120 < averageSpeed cm) /\
  (remaining_pct (time p) == 15 # 100 -> panic_detected (efficiency p) = false) /\
  (averageSpeed cm == 120 -> panic_detected (efficiency p) = false).
Proof.
  intro Hp. simpl in Hp. injection Hp as <-.
  cbn [time efficiency remaining_pct panic_detected].
  assert (Hiff : JS.ltb (timeLeft / 60) (15 # 100) && JS.gtb (averageSpeed cm) 120 = true
                 <-> timeLeft / 60 < 15 # 100 /\ 120 < averageSpeed cm).
  { rewrite andb_true_iff, ltb_lt, gtb_gt. reflexivity. }
  split; [reflexivity|]. split; [exact Hiff|]. split.
  - intro Heq. apply not_true_is_false. intro Ht.
    apply Hiff in Ht. destruct Ht as [Ht _]. rewrite Heq in Ht.
    exact (Qlt_irrefl _ Ht).
  - intro Heq. apply not_true_is_false. intro Ht.
    apply Hiff in Ht. destruct Ht as [_ Ht]. rewrite Heq in Ht.
    exact (Qlt_irrefl _ Ht).
Qed.

End Payload.

(** ** Reading the metrics *)

Section Hesitation.

Import DrawingCanvas.

Context {Surface : Type} `{CanvasAPI Surface}.

Lemma set_metrics_same (st : State Surface) : set_metrics (metrics st) st = st.
Proof. destruct st; reflexivity. Qed.

Lemma set_hesitationSeconds_same (m : DrawingMetrics) :
  set_hesitationSeconds (hesitationSeconds m) m = m.
Proof. destruct m; reflexivity. Qed.

(** C7.  [getMetrics] returns, as [hesitationSeconds], the time passed since
    [lastStrokeTime] in seconds when no stroke is in progress, and the stored
    value when one is; the returned record is a copy of the stored metrics,
    and the component's state changes in that one field only. *)
Theorem getMetrics_hesitation (now : Z) (st : State Surface) :
  let m := fst (getMetrics now st) in
  let st' := snd (getMetrics now st) in
  hesitationSeconds m
  = (if isDrawing st then hesitationSeconds (metrics st)
     else (inject_Z now - lastStrokeTime (metrics st)) / 1000) /\
  m = set_hesitationSeconds (hesitationSeconds m) (metrics st) /\
  st' = set_metrics m st.
Proof.
  unfold getMetrics. destruct (isDrawing st); cbn.
  - rewrite set_hesitationSeconds_same, set_metrics_same. auto.
  - auto.
Qed.

End Hesitation.

(** ** Arrays *)

Section Arrays.

Context {A : Type}.

Lemma pop_push (l : list A) (x : A) : JS.pop (JS.push l x) = Some (l, x).
Proof.
  unfold JS.pop, JS.push. rewrite rev_unit, removelast_last. reflexivity.
Qed.

Lemma pop_nil : JS.pop (@nil A) = None.
Proof. reflexivity. Qed.

Lemma snoc_or_nil (l : list A) : l = [] \/ exists r x, l = r ++ [x].
Proof.
  induction l as [|x r _] using rev_ind; [left; reflexivity|].
  right. exists r, x. reflexivity.
Qed.

Lemma last_cons_default (x : A) (l : list A) (d d' : A) :
  last (x :: l) d = last (x :: l) d'.
Proof.
  revert x. induction l as [|y l IH]; intro x; [reflexivity|].
  change (last (y :: l) d = last (y :: l) d'). apply IH.
Qed.

Lemma length_push (l : list A) (x : A) :
  List.length (JS.push l x) = S (List.length l).
Proof. unfold JS.push. rewrite length_app. simpl. lia. Qed.

Lemma length_shift (l : list A) :
  List.length (JS.shift l) = pred (List.length l).
Proof. destruct l; reflexivity. Qed.

(** Pushing onto a full array of [n] elements and shifting keeps the last
    [n] elements. *)
Lemma shift_push_skipn (l : list A) (x : A) :
  JS.shift (JS.push l x) = skipn 1 (JS.push l x).
Proof. unfold JS.shift. destruct (JS.push l x); reflexivity. Qed.

End Arrays.

(** ** The snapshot history *)

Section History.

Import DrawingCanvas.

Context {Surface : Type} `{CanvasAPI Surface}.

Local Abbreviation St := (State Surface).

(** *** What each operation does to the stacks *)

Lemma saveState_no_canvas (st : St) : canvasRef st = None -> saveState st = st.
Proof. intro Hc. unfold saveState. rewrite Hc. reflexivity. Qed.

Lemma saveState_canvas (st : St) (cv : CanvasEl Surface) :
  canvasRef st = Some cv ->
  saveState st =
  set_redoStack []
    (set_undoStack
       (let pushed := JS.push (undoStack st) (toDataURL (surface cv)) in
        if (MAX_HISTORY <? List.length pushed)%nat then JS.shift pushed else pushed)
       st).
Proof. intro Hc. unfold saveState. rewrite Hc. reflexivity. Qed.

Lemma undo_empty (st : St) : undoStack st = [] -> undo st = st.
Proof. intro Hu. unfold undo. rewrite Hu. reflexivity. Qed.

Lemma undo_no_canvas (st : St) : canvasRef st = None -> undo st = st.
Proof.
  intro Hc. unfold undo. rewrite Hc.
  destruct (List.length (undoStack st) =? 0)%nat; reflexivity.
Qed.

Lemma redo_empty (st : St) : redoStack st = [] -> redo st = st.
Proof. intro Hr. unfold redo. rewrite Hr. reflexivity. Qed.

Lemma redo_no_canvas (st : St) : canvasRef st = None -> redo st = st.
Proof.
  intro Hc. unfold redo. rewrite Hc.
  destruct (List.length (redoStack st) =? 0)%nat; reflexivity.
Qed.

Lemma length_snoc_nonzero {A} (r : list A) (x : A) :
  (List.length (r ++ [x]) =? 0)%nat = false.
Proof. rewrite length_app. simpl. apply Nat.eqb_neq. lia. Qed.

Lemma undo_applied (st : St) (cv : CanvasEl Surface) (rest : list string) (p : string) :
  canvasRef st = Some cv -> undoStack st = rest ++ [p] ->
  undo st =
  restoreState p
    (set_undoStack rest
       (set_redoStack (JS.push (redoStack st) (toDataURL (surface cv)))
          (set_metrics
             (set_undoCount (undoCount (metrics st) + 1) (metrics st)) st))).
Proof.
  intros Hc Hu. unfold undo. rewrite Hc, Hu, length_snoc_nonzero.
  cbn [undoStack set_redoStack set_metrics].
  rewrite Hu. change (rest ++ [p]) with (JS.push rest p).
  rewrite pop_push. reflexivity.
Qed.

Lemma redo_applied (st : St) (cv : CanvasEl Surface) (rest : list string) (n : string) :
  canvasRef st = Some cv -> redoStack st = rest ++ [n] ->
  redo st =
  restoreState n
    (set_redoStack rest
       (set_undoStack (JS.push (undoStack st) (toDataURL (surface cv))) st)).
Proof.
  intros Hc Hr. unfold redo. rewrite Hc, Hr, length_snoc_nonzero.
  cbn [redoStack set_undoStack].
  rewrite Hr. change (rest ++ [n]) with (JS.push rest n).
  rewrite pop_push. reflexivity.
Qed.

(** [restoreState] touches the list of loading images only. *)
Lemma restoreState_frame (u : string) (st : St) :
  undoStack (restoreState u st) = undoStack st /\
  redoStack (restoreState u st) = redoStack st /\
  metrics (restoreState u st) = metrics st /\
  canvasRef (restoreState u st) = canvasRef st.
Proof.
  unfold restoreState. destruct (canvasRef st) as [cv|] eqn:Hc;
    [destruct (ctx2d cv)|]; cbn; rewrite ?Hc; repeat split; reflexivity.
Qed.

Lemma restoreState_loading (u : string) (st : St) (cv : CanvasEl Surface) :
  canvasRef st = Some cv -> ctx2d cv = true ->
  loading (restoreState u st) = loading st ++ [u].
Proof.
  intros Hc Hx. unfold restoreState. rewrite Hc, Hx. reflexivity.
Qed.

Lemma paint_frame (f : Surface -> Surface) (st : St) :
  undoStack (paint f st) = undoStack st /\
  redoStack (paint f st) = redoStack st /\
  metrics (paint f st) = metrics st /\
  isDrawing (paint f st) = isDrawing st /\
  isActive (paint f st) = isActive st /\
  lastPos (paint f st) = lastPos st /\
  loading (paint f st) = loading st.
Proof.
  unfold paint. destruct (canvasRef st); repeat split; reflexivity.
Qed.

(** The image loaded last in the list is drawn over the background. *)
Lemma img_onload_last (st : St) (l : list string) (u : string) :
  loading st = l ++ [u] ->
  img_onload (List.length l) st =
  paint (fun s => drawImage u (fillBackground s)) (set_loading l st).
Proof.
  intro Hl. unfold img_onload. rewrite Hl.
  rewrite nth_error_app2, Nat.sub_diag by lia. cbn [nth_error].
  rewrite firstn_app, Nat.sub_diag, firstn_all, firstn_O, app_nil_r.
  rewrite skipn_all2 by (rewrite length_app; simpl; lia).
  rewrite app_nil_r. reflexivity.
Qed.

(** *** Empty stacks *)

(** C6.  [undo] with an empty [undoStack], and [redo] with an empty
    [redoStack], return the state they were given: stacks, metrics and
    everything else are as before. *)
Theorem empty_stack_noop (st : St) :
  (undoStack st = [] -> undo st = st) /\
  (redoStack st = [] -> redo st = st).
Proof. split; [apply undo_empty | apply redo_empty]. Qed.

(** *** redo and the metrics *)

(** C10.  [redo] leaves every field of the metrics as it was, whether it
    applies or not; [undoCount] moves only in [undo], by one, and only when
    the undo is applied (a non-empty [undoStack] and a canvas). *)
Theorem redo_keeps_metrics (st : St) :
  metrics (redo st) = metrics st /\
  undoCount (metrics (undo st)) =
  match undoStack st, canvasRef st with
  | _ :: _, Some _ => undoCount (metrics st) + 1
  | _, _ => undoCount (metrics st)
  end.
Proof.
  split.
  - destruct (snoc_or_nil (redoStack st)) as [Hr | (rest & n & Hr)].
    + rewrite redo_empty; [reflexivity | exact Hr].
    + destruct (canvasRef st) as [cv|] eqn:Hc.
      * rewrite (redo_applied st cv rest n Hc Hr).
        destruct (restoreState_frame n
          (set_redoStack rest
             (set_undoStack (JS.push (undoStack st) (toDataURL (surface cv))) st)))
          as (_ & _ & Hm & _).
        rewrite Hm. reflexivity.
      * rewrite redo_no_canvas; [reflexivity | exact Hc].
  - destruct (snoc_or_nil (undoStack st)) as [Hu | (rest & p & Hu)].
    + rewrite undo_empty by exact Hu. rewrite Hu. reflexivity.
    + destruct (canvasRef st) as [cv|] eqn:Hc.
      * rewrite (undo_applied st cv rest p Hc Hu).
        match goal with
        | |- context [restoreState p ?s] =>
            destruct (restoreState_frame p s) as (_ & _ & Hm & _)
        end.
        rewrite Hm, Hu. cbn. destruct rest; reflexivity.
      * rewrite undo_no_canvas by exact Hc.
        destruct (undoStack st); reflexivity.
Qed.

(** *** The bound on the history *)

Lemma lastn_short {A} (n : nat) (l : list A) :
  (List.length l <= n)%nat -> lastn n l = l.
Proof.
  intro Hl. unfold lastn. replace (List.length l - n)%nat with 0%nat by lia.
  reflexivity.
Qed.

Lemma length_lastn {A} (n : nat) (l : list A) :
  List.length (lastn n l) = Nat.min n (List.length l).
Proof. unfold lastn. rewrite length_skipn. lia. Qed.

Lemma lastn_app_lastn {A} (n : nat) (l m : list A) :
  lastn n (lastn n l ++ m) = lastn n (l ++ m).
Proof.
  destruct (Nat.le_gt_cases (List.length l) n) as [Hle | Hgt].
  - rewrite (lastn_short n l Hle). reflexivity.
  - unfold lastn at 1 3. rewrite !length_app, length_lastn.
    replace (Nat.min n (List.length l) + List.length m - n)%nat
      with (List.length m) by lia.
    replace (List.length l + List.length m - n)%nat
      with (List.length m + (List.length l - n))%nat by lia.
    rewrite <- skipn_skipn. f_equal. unfold lastn.
    rewrite skipn_app.
    replace (List.length l - n - List.length l)%nat with 0%nat by lia.
    reflexivity.
Qed.

(** [saveState] keeps the last [MAX_HISTORY] of the old entries and the new
    one. *)
Lemma saveState_undoStack (st : St) (cv : CanvasEl Surface) :
  canvasRef st = Some cv ->
  (List.length (undoStack st) <= MAX_HISTORY)%nat ->
  undoStack (saveState st)
  = lastn MAX_HISTORY (undoStack st ++ [toDataURL (surface cv)]).
Proof.
  intros Hc Hlen. rewrite (saveState_canvas st cv Hc).
  cbn [undoStack set_redoStack set_undoStack].
  pose proof (length_push (undoStack st) (toDataURL (surface cv))) as Hp.
  destruct (MAX_HISTORY <? List.length (JS.push (undoStack st) (toDataURL (surface cv))))%nat
    eqn:Hfull.
  - apply Nat.ltb_lt in Hfull. rewrite shift_push_skipn.
    unfold lastn. change (undoStack st ++ [toDataURL (surface cv)])
      with (JS.push (undoStack st) (toDataURL (surface cv))).
    f_equal. lia.
  - apply Nat.ltb_ge in Hfull. symmetry. apply lastn_short. exact Hfull.
Qed.

Lemma saveState_within (st : St) :
  within_history st -> within_history (saveState st).
Proof.
  unfold within_history. intro Hin.
  destruct (canvasRef st) as [cv|] eqn:Hc.
  - rewrite (saveState_undoStack st cv Hc) by lia.
    rewrite (saveState_canvas st cv Hc). cbn [redoStack set_redoStack].
    rewrite length_lastn. cbn [Datatypes.length].
    pose proof (Nat.le_min_l MAX_HISTORY
                  (Datatypes.length (undoStack st ++ [toDataURL (surface cv)]))).
    lia.
  - rewrite saveState_no_canvas by exact Hc. exact Hin.
Qed.

Lemma undo_within (st : St) : within_history st -> within_history (undo st).
Proof.
  unfold within_history. intro Hin.
  destruct (snoc_or_nil (undoStack st)) as [Hu | (rest & p & Hu)].
  - rewrite undo_empty by exact Hu. exact Hin.
  - destruct (canvasRef st) as [cv|] eqn:Hc.
    + rewrite (undo_applied st cv rest p Hc Hu).
      match goal with
      | |- context [restoreState p ?s] =>
          destruct (restoreState_frame p s) as (Hu' & Hr' & _)
      end.
      rewrite Hu', Hr'. cbn [undoStack redoStack set_undoStack set_redoStack set_metrics].
      rewrite length_push. rewrite Hu, length_app in Hin. simpl in Hin. lia.
    + rewrite undo_no_canvas by exact Hc. exact Hin.
Qed.

Lemma redo_within (st : St) : within_history st -> within_history (redo st).
Proof.
  unfold within_history. intro Hin.
  destruct (snoc_or_nil (redoStack st)) as [Hr | (rest & n & Hr)].
  - rewrite redo_empty by exact Hr. exact Hin.
  - destruct (canvasRef st) as [cv|] eqn:Hc.
    + rewrite (redo_applied st cv rest n Hc Hr).
      match goal with
      | |- context [restoreState n ?s] =>
          destruct (restoreState_frame n s) as (Hu' & Hr' & _)
      end.
      rewrite Hu', Hr'. cbn [undoStack redoStack set_undoStack set_redoStack].
      rewrite length_push. rewrite Hr, length_app in Hin. simpl in Hin. lia.
    + rewrite redo_no_canvas by exact Hc. exact Hin.
Qed.

(** The other handlers leave both stacks alone. *)
Definition same_stacks (st st' : St) : Prop :=
  undoStack st' = undoStack st /\ redoStack st' = redoStack st.

Lemma same_stacks_within (st st' : St) :
  same_stacks st st' -> within_history st -> within_history st'.
Proof. unfold within_history. intros [-> ->] Hin. exact Hin. Qed.

Ltac stack_frame :=
  unfold same_stacks;
  repeat match goal with
         | |- context [match ?x with _ => _ end] => destruct x
         end;
  split; reflexivity.

Lemma draw_same_stacks (Math_sqrt : Q -> Q) rect e (st : St) :
  same_stacks st (draw Math_sqrt rect e st).
Proof. destruct st as [[cv|] ? [] ? ? ? ? ? ? ? ? ?]; unfold draw, paint; cbn; stack_frame. Qed.

Lemma stopDrawing_same_stacks now1 now2 (st : St) :
  same_stacks st (stopDrawing now1 now2 st).
Proof. destruct st as [[cv|] ? [] ? ? ? ? ? ? ? ? ?]; unfold stopDrawing, paint; cbn; stack_frame. Qed.

Lemma img_onload_same_stacks n (st : St) :
  same_stacks st (img_onload n st).
Proof. destruct st as [[cv|] ? ? ? ? ? ? ? ? ? ? ?]; unfold img_onload, paint; cbn; stack_frame. Qed.

Lemma getMetrics_same_stacks now (st : St) :
  same_stacks st (snd (getMetrics now st)).
Proof. destruct st as [? ? [] ? ? ? ? ? ? ? ? ?]; split; reflexivity. Qed.

Lemma clear_stacks (st : St) : same_stacks (saveState st) (clear st).
Proof.
  unfold clear. destruct (saveState st) as [[cv|] ? ? ? ? ? ? ? ? ? ? ?];
    unfold paint; cbn; stack_frame.
Qed.

Lemma startDrawing_within (Math_sqrt : Q -> Q) rect e now (st : St) :
  within_history st -> within_history (startDrawing Math_sqrt rect e now st).
Proof.
  intro Hin. unfold startDrawing. destruct (negb (isActive st)); [exact Hin|].
  apply saveState_within in Hin.
  match goal with
  | |- within_history (set_isDrawing true (draw _ _ _ ?s)) =>
      pose proof (draw_same_stacks Math_sqrt rect e s) as [Hu Hr]
  end.
  unfold within_history in *. cbn [undoStack redoStack set_isDrawing].
  rewrite Hu, Hr. exact Hin.
Qed.

Lemma step_within (Math_sqrt : Q -> Q) (a : Action Surface) (st : St) :
  within_history st -> within_history (step Math_sqrt a st).
Proof.
  intro Hin. destruct a; cbn [step].
  - apply startDrawing_within, Hin.
  - exact (same_stacks_within _ _ (draw_same_stacks _ _ _ _) Hin).
  - exact (same_stacks_within _ _ (stopDrawing_same_stacks _ _ _) Hin).
  - apply saveState_within, Hin.
  - exact (same_stacks_within _ _ (clear_stacks _) (saveState_within _ Hin)).
  - exact Hin.
  - exact Hin.
  - exact Hin.
  - apply undo_within, Hin.
  - apply redo_within, Hin.
  - exact (same_stacks_within _ _ (getMetrics_same_stacks _ _) Hin).
  - exact (same_stacks_within _ _ (img_onload_same_stacks _ _) Hin).
  - exact Hin.
  - exact Hin.
Qed.

Lemma run_within (Math_sqrt : Q -> Q) (acts : list (Action Surface)) (st : St) :
  within_history st -> within_history (run Math_sqrt acts st).
Proof.
  revert st. induction acts as [|a acts IH]; intros st Hin; [exact Hin|].
  cbn [run fold_left]. apply IH, step_within, Hin.
Qed.

Lemma mount_within (cv : option (CanvasEl Surface)) active now :
  within_history (mount cv active now).
Proof. unfold within_history. cbn. unfold MAX_HISTORY. lia. Qed.

Lemma saveState_canvasRef (st : St) : canvasRef (saveState st) = canvasRef st.
Proof.
  unfold saveState. destruct (canvasRef st) eqn:Hc; [cbn|]; auto.
Qed.

Lemma saveEach_undoStack (shown : list Surface) (st : St) (cv : CanvasEl Surface) :
  canvasRef st = Some cv ->
  (List.length (undoStack st) <= MAX_HISTORY)%nat ->
  undoStack (saveEach shown st)
  = lastn MAX_HISTORY (undoStack st ++ map toDataURL shown).
Proof.
  revert st cv. induction shown as [|b shown IH]; intros st cv Hc Hlen.
  - cbn. rewrite app_nil_r. symmetry. apply lastn_short, Hlen.
  - cbn [saveEach fold_left map].
    set (st1 := paint (fun _ => b) st).
    assert (Hc1 : canvasRef st1 = Some (mkCanvas (ctx2d cv) b)).
    { unfold st1, paint. rewrite Hc. reflexivity. }
    assert (Hu1 : undoStack st1 = undoStack st).
    { apply (paint_frame (fun _ => b) st). }
    assert (Hs : undoStack (saveState st1)
                 = lastn MAX_HISTORY (undoStack st ++ [toDataURL b])).
    { rewrite (saveState_undoStack st1 _ Hc1), Hu1 by (rewrite Hu1; exact Hlen).
      reflexivity. }
    change (fold_left (fun s b0 => saveState (paint (fun _ => b0) s)) shown
              (saveState st1)) with (saveEach shown (saveState st1)).
    rewrite (IH (saveState st1) (mkCanvas (ctx2d cv) b)).
    + rewrite Hs, lastn_app_lastn, <- app_assoc. reflexivity.
    + rewrite saveState_canvasRef. exact Hc1.
    + rewrite Hs, length_lastn. apply Nat.le_min_l.
Qed.

(** C3.  From the mounted component on, whatever the handlers and calls
    that follow (among them [saveState], [undo] and [redo]), [undoStack]
    holds at most 50 entries; [redo], which pushes without a check, keeps
    the bound because the two stacks together never exceed it.  A
    [saveState] on a full stack drops the oldest entry and appends the new
    one, so that 51 saved snapshots leave exactly the 50 latest. *)
Theorem undoStack_bounded :
  (forall Math_sqrt (acts : list (Action Surface)) cv active now,
     (List.length (undoStack (run Math_sqrt acts (mount cv active now)))
      <= 50)%nat) /\
  (forall st : St,
     within_history st -> (List.length (undoStack (redo st)) <= 50)%nat) /\
  (forall (st : St) cv,
     canvasRef st = Some cv -> (List.length (undoStack st) <= 50)%nat ->
     undoStack (saveState st)
     = lastn 50 (undoStack st ++ [toDataURL (surface cv)])) /\
  (forall (st : St) cv,
     canvasRef st = Some cv -> List.length (undoStack st) = 50%nat ->
     undoStack (saveState st)
     = JS.shift (undoStack st) ++ [toDataURL (surface cv)]) /\
  (forall oldest latest cv active now,
     List.length latest = 50%nat ->
     undoStack (saveEach (oldest :: latest) (mount (Some cv) active now))
     = map toDataURL latest).
Proof.
  split; [|split; [|split; [|split]]].
  - intros Math_sqrt acts cv active now.
    pose proof (run_within Math_sqrt acts _ (mount_within cv active now)) as Hin.
    unfold within_history, MAX_HISTORY in Hin. lia.
  - intros st Hin. apply redo_within in Hin.
    unfold within_history, MAX_HISTORY in Hin. lia.
  - intros st cv Hc Hlen. exact (saveState_undoStack st cv Hc Hlen).
  - intros st cv Hc Hlen.
    rewrite (saveState_undoStack st cv Hc) by (unfold MAX_HISTORY; lia).
    unfold lastn, MAX_HISTORY. rewrite length_app, Hlen. cbn [Datatypes.length].
    replace (50 + 1 - 50)%nat with 1%nat by lia.
    destruct (undoStack st); [discriminate Hlen | reflexivity].
  - intros oldest latest cv active now Hlen.
    rewrite (saveEach_undoStack _ _ cv) by (cbn; unfold MAX_HISTORY; auto with arith).
    cbn [mount undoStack app map]. unfold lastn, MAX_HISTORY.
    cbn [Datatypes.length]. rewrite length_map, Hlen.
    replace (51 - 50)%nat with 1%nat by lia. reflexivity.
Qed.

(** *** saveState and the redo stack *)

Lemma undo_canvasRef (st : St) : canvasRef (undo st) = canvasRef st.
Proof.
  destruct (snoc_or_nil (undoStack st)) as [Hu | (rest & p & Hu)].
  - rewrite undo_empty by exact Hu. reflexivity.
  - destruct (canvasRef st) as [cv|] eqn:Hc.
    + rewrite (undo_applied st cv rest p Hc Hu).
      match goal with
      | |- context [restoreState p ?s] =>
          destruct (restoreState_frame p s) as (_ & _ & _ & Hc')
      end.
      rewrite Hc'. exact Hc.
    + rewrite undo_no_canvas by exact Hc. exact Hc.
Qed.

Lemma saveState_then_redo (t : St) (cv : CanvasEl Surface) :
  canvasRef t = Some cv ->
  redoStack (saveState t) = [] /\ redo (saveState t) = saveState t.
Proof.
  intro Hc.
  assert (Hr : redoStack (saveState t) = [])
    by (rewrite (saveState_canvas t cv Hc); reflexivity).
  split; [exact Hr | apply redo_empty, Hr].
Qed.

(** C5.  [saveState] runs with a snapshot to save: the canvas is there, as
    it is in its two callers, the press and [clear].  After every such
    call [redoStack] is empty and the snapshot is the last entry of
    [undoStack], also when the call follows an [undo]; a [redo] right
    after the [saveState], the [clear] or the press does nothing. *)
Theorem saveState_clears_redo (st : St) (cv : CanvasEl Surface) :
  canvasRef st = Some cv ->
  redoStack (saveState st) = [] /\
  (exists older, undoStack (saveState st) = older ++ [toDataURL (surface cv)]) /\
  redo (saveState st) = saveState st /\
  redoStack (saveState (undo st)) = [] /\
  redo (saveState (undo st)) = saveState (undo st) /\
  redoStack (clear st) = [] /\
  redo (clear st) = clear st /\
  (forall Math_sqrt rect e now,
     isActive st = true ->
     redoStack (startDrawing Math_sqrt rect e now st) = [] /\
     redo (startDrawing Math_sqrt rect e now st)
     = startDrawing Math_sqrt rect e now st).
Proof.
  intro Hc.
  destruct (saveState_then_redo st cv Hc) as [Hr Hredo].
  assert (Hcu : canvasRef (undo st) = Some cv)
    by (rewrite undo_canvasRef; exact Hc).
  destruct (saveState_then_redo (undo st) cv Hcu) as [Hru Hredou].
  assert (Hrc : redoStack (clear st) = []).
  { destruct (clear_stacks st) as [_ Hsame]. rewrite Hsame. exact Hr. }
  split; [exact Hr|]. split.
  { rewrite (saveState_canvas st cv Hc). cbn [undoStack set_redoStack set_undoStack].
    destruct (undoStack st) as [|u us].
    - exists []. reflexivity.
    - destruct (MAX_HISTORY <? _)%nat.
      + exists us. reflexivity.
      + exists (u :: us). reflexivity. }
  split; [exact Hredo|]. split; [exact Hru|]. split; [exact Hredou|].
  split; [exact Hrc|]. split; [apply redo_empty, Hrc|].
  intros Math_sqrt rect e now Hia.
  assert (Hrs : redoStack (startDrawing Math_sqrt rect e now st) = []).
  { unfold startDrawing. rewrite Hia. cbn [negb redoStack set_isDrawing].
    match goal with
    | |- redoStack (draw _ _ _ ?t) = _ =>
        destruct (draw_same_stacks Math_sqrt rect e t) as [_ Hsame]
    end.
    rewrite Hsame. exact Hr. }
  split; [exact Hrs | apply redo_empty, Hrs].
Qed.

(** *** Without a canvas *)

(** C9 (amended).  With [canvasRef.current] null, [getSnapshot] returns
    the empty string and [saveState], [undo] and [redo] return the state
    unchanged; [clear] leaves both stacks alone and every metric but one:
    counting the clear needs no canvas, and [clearCount] goes up by one. *)
Theorem missing_surface (st : St) :
  canvasRef st = None ->
  getSnapshot st = JS.Str "" /\
  saveState st = st /\
  undo st = st /\
  redo st = st /\
  undoStack (clear st) = undoStack st /\
  redoStack (clear st) = redoStack st /\
  clearCount (metrics (clear st)) = clearCount (metrics st) + 1 /\
  ~ clearCount (metrics (clear st)) == clearCount (metrics st) /\
  clear st
  = set_metrics (set_clearCount (clearCount (metrics st) + 1) (metrics st)) st.
Proof.
  intro Hc.
  assert (Hclear : clear st
                   = set_metrics
                       (set_clearCount (clearCount (metrics st) + 1) (metrics st)) st).
  { unfold clear. rewrite (saveState_no_canvas st Hc).
    cbn [canvasRef set_metrics]. rewrite Hc. reflexivity. }
  repeat split.
  - unfold getSnapshot. rewrite Hc. reflexivity.
  - apply saveState_no_canvas, Hc.
  - apply undo_no_canvas, Hc.
  - apply redo_no_canvas, Hc.
  - rewrite Hclear. reflexivity.
  - rewrite Hclear. reflexivity.
  - rewrite Hclear. reflexivity.
  - rewrite Hclear. cbn. lra.
  - exact Hclear.
Qed.

(** *** Round trips *)

Lemma saveState_clears_redo_aux (st : St) (cv : CanvasEl Surface) :
  canvasRef st = Some cv ->
  redoStack (saveState st) = [] /\
  exists older,
    undoStack (saveState st) = older ++ [toDataURL (surface cv)] /\
    loading (saveState st) = loading st /\
    ((List.length (undoStack st) < 50)%nat -> older = undoStack st).
Proof.
  intro Hc. rewrite (saveState_canvas st cv Hc).
  cbn [redoStack undoStack loading set_redoStack set_undoStack].
  split; [reflexivity|].
  destruct (MAX_HISTORY <? _)%nat eqn:Hfull.
  - apply Nat.ltb_lt in Hfull. rewrite length_push in Hfull.
    unfold MAX_HISTORY in Hfull.
    destruct (undoStack st) as [|u us]; [cbn in Hfull; lia|].
    exists us. repeat split. intro Hlt. cbn in Hfull, Hlt. lia.
  - exists (undoStack st). repeat split.
Qed.

(** The state once the image that [restoreState] asked for has loaded. *)
Lemma restored (u : string) (st : St) (cv : CanvasEl Surface) :
  canvasRef st = Some cv -> ctx2d cv = true ->
  let st' := img_onload (List.length (loading st)) (restoreState u st) in
  canvasRef st' = Some (mkCanvas true (drawImage u (fillBackground (surface cv)))) /\
  loading st' = loading st /\
  undoStack st' = undoStack st /\
  redoStack st' = redoStack st /\
  metrics st' = metrics st.
Proof.
  intros Hc Hx. cbn zeta.
  rewrite (img_onload_last _ (loading st) u)
    by (apply (restoreState_loading u st cv Hc Hx)).
  unfold restoreState, paint. rewrite Hc, Hx. cbn. rewrite Hc, Hx.
  repeat split; reflexivity.
Qed.




End History.

(** ** The speed estimate *)

Section Smoothing.

Import DrawingCanvas.

Context {Surface : Type} `{CanvasAPI Surface}.

Variable Math_sqrt : Q -> Q.

Local Abbreviation St := (State Surface).

(** A stroke is being drawn on a canvas with a 2D context. *)
Definition stroking (st : St) : Prop :=
  isDrawing st = true /\ isActive st = true /\
  exists cv, canvasRef st = Some cv /\ ctx2d cv = true.

Lemma draw_stroking rect e (st : St) :
  stroking st ->
  let st' := draw Math_sqrt rect e st in
  stroking st' /\
  lastPos st' = Some (position rect e) /\
  averageSpeed (metrics st')
  = match lastPos st with
    | Some lp =>
        (averageSpeed (metrics st) + distance Math_sqrt lp (position rect e)) / 2
    | None => averageSpeed (metrics st)
    end.
Proof.
  intros (Hd & Ha & cv & Hc & Hx). unfold stroking, draw, paint.
  rewrite Hd, Ha, Hc, Hx. cbn.
  destruct (lastPos st) as [lp|]; cbn; rewrite Hc; cbn; rewrite Hd, Ha;
    (split; [split; [reflexivity | split; [reflexivity | eexists; split; [reflexivity | exact Hx]]]
            | split; reflexivity]).
Qed.

Lemma speeds_mid_stroke (moves : list (Rect * PointerEvent)) :
  forall (st : St) lp,
    stroking st -> lastPos st = Some lp ->
    speeds Math_sqrt moves st
    = Spec.smoothing (averageSpeed (metrics st))
        (distances Math_sqrt lp (samples moves)).
Proof.
  induction moves as [|[rect e] rest IH]; intros st lp Hs Hlp; [reflexivity|].
  destruct (draw_stroking rect e st Hs) as (Hs' & Hlp' & Hav).
  rewrite Hlp in Hav.
  cbn [speeds samples map distances Spec.smoothing fst snd].
  rewrite Hav. f_equal.
  rewrite (IH _ _ Hs' Hlp'), Hav. reflexivity.
Qed.

Lemma draws_last (moves : list (Rect * PointerEvent)) :
  forall st : St,
    averageSpeed (metrics (draws Math_sqrt moves st))
    = last (speeds Math_sqrt moves st) (averageSpeed (metrics st)).
Proof.
  induction moves as [|[rect e] rest IH]; intro st; [reflexivity|].
  cbn [draws fold_left speeds fst snd].
  change (fold_left (fun s m => draw Math_sqrt (fst m) (snd m) s) rest
            (draw Math_sqrt rect e st))
    with (draws Math_sqrt rest (draw Math_sqrt rect e st)).
  rewrite IH. destruct rest as [|[rect' e'] rest']; [reflexivity|].
  cbn [speeds]. apply (last_cons_default _ (_ :: _)).
Qed.

(** Over a whole run, [averageSpeed] moves in [draw] only, one recurrence
    step for each distance measured. *)
Ltac by_cases_on_code :=
  cbn;
  repeat (match goal with
          | |- context [match ?x with _ => _ end] => destruct x
          end; cbn);
  reflexivity.

Lemma step_averageSpeed (a : Action Surface) (st : St) :
  averageSpeed (metrics (step Math_sqrt a st))
  = match measured_by Math_sqrt a st with
    | Some d => (averageSpeed (metrics st) + d) / 2
    | None => averageSpeed (metrics st)
    end.
Proof.
  destruct st as [[[[|] sf]|] [|] [|] col lw ls m [lp|] dst us rs ld];
  destruct a;
    unfold step, measured_by, measured, startDrawing, draw, stopDrawing,
      saveState, clear, setColor, undo, redo, getMetrics, img_onload,
      restoreState, paint;
    by_cases_on_code.
Qed.

Lemma last_cons_start {A} (x : A) (l : list A) (d : A) :
  last (x :: l) d = last l x.
Proof.
  destruct l as [|y l]; [reflexivity|].
  change (last (y :: l) d = last (y :: l) x). apply last_cons_default.
Qed.

Lemma run_averageSpeed (acts : list (Action Surface)) :
  forall st : St,
    averageSpeed (metrics (run Math_sqrt acts st))
    = last (Spec.smoothing (averageSpeed (metrics st)) (updates Math_sqrt acts st))
        (averageSpeed (metrics st)).
Proof.
  induction acts as [|a acts IH]; intro st; [reflexivity|].
  cbn [run fold_left updates].
  change (fold_left (fun s a0 => step Math_sqrt a0 s) acts (step Math_sqrt a st))
    with (run Math_sqrt acts (step Math_sqrt a st)).
  rewrite IH, step_averageSpeed.
  destruct (measured_by Math_sqrt a st) as [d|]; [|reflexivity].
  cbn [Spec.smoothing]. rewrite last_cons_start. reflexivity.
Qed.

(** C1.  While a stroke is being drawn, the values [averageSpeed] takes
    over a series of [draw] calls are those of the recurrence
    [a_n = (a_(n-1) + d_n) / 2] over the Euclidean distances between
    consecutive pointer positions, started at the value [averageSpeed] had
    before; the first call of a stroke has no previous position and changes
    nothing.  Over any run from the mounted component, [averageSpeed] is
    the recurrence from [a_0 = 0] over all the distances measured.  For the
    distances 10, 20, 30 from 0 the values are 5, 12.5 and 21.25. *)
Theorem averageSpeed_recurrence (moves : list (Rect * PointerEvent)) (st : St) :
  stroking st ->
  let a0 := averageSpeed (metrics st) in
  speeds Math_sqrt moves st
  = match lastPos st, samples moves with
    | Some lp, pts => Spec.smoothing a0 (distances Math_sqrt lp pts)
    | None, [] => []
    | None, p0 :: pts => a0 :: Spec.smoothing a0 (distances Math_sqrt p0 pts)
    end /\
  averageSpeed (metrics (draws Math_sqrt moves st))
  = last (speeds Math_sqrt moves st) a0 /\
  (forall (acts : list (Action Surface)) cv active now,
     averageSpeed (metrics (run Math_sqrt acts (mount cv active now)))
     = last (Spec.smoothing 0
               (updates Math_sqrt acts (mount cv active now))) 0) /\
  (forall lp,
     lastPos st = Some lp -> a0 == 0 ->
     Forall2 Qeq (distances Math_sqrt lp (samples moves)) [10; 20; 30] ->
     Forall2 Qeq (speeds Math_sqrt moves st) [5; 25 # 2; 85 # 4]).
Proof.
  intros Hs a0. split; [|split; [|split]].
  - destruct (lastPos st) as [lp|] eqn:Hlp.
    + apply speeds_mid_stroke; assumption.
    + destruct moves as [|[rect e] rest]; [reflexivity|].
      destruct (draw_stroking rect e st Hs) as (Hs' & Hlp' & Hav).
      rewrite Hlp in Hav.
      cbn [speeds samples map fst snd]. rewrite Hav. f_equal.
      rewrite (speeds_mid_stroke rest _ _ Hs' Hlp'), Hav. reflexivity.
  - apply draws_last.
  - intros acts cv active now.
    apply (run_averageSpeed acts (mount cv active now)).
  - intros lp Hlp Ha0 Hds.
    rewrite (speeds_mid_stroke moves st lp Hs Hlp). fold a0.
    destruct (distances Math_sqrt lp (samples moves)) as [|d1 [|d2 [|d3 [|d4 ds]]]];
      inversion Hds as [|? ? ? ? H1 Hds1]; subst;
      inversion Hds1 as [|? ? ? ? H2 Hds2]; subst;
      inversion Hds2 as [|? ? ? ? H3 Hds3]; subst;
      inversion Hds3; subst.
    cbn [Spec.smoothing]. unfold a0 in *.
    apply Forall2_cons; [rewrite Ha0, H1; reflexivity|].
    apply Forall2_cons; [rewrite Ha0, H1, H2; reflexivity|].
    apply Forall2_cons; [rewrite Ha0, H1, H2, H3; reflexivity|].
    apply Forall2_nil.
Qed.

End Smoothing.

(** ** The component at work on the text canvas *)

Section Runs.

Import DrawingCanvas App.

Lemma mid_stroke_stroking : stroking Demo.mid_stroke.
Proof.
  split; [reflexivity|]. split; [reflexivity|].
  exists (mkCanvas true ""%string). split; reflexivity.
Defined.

Lemma averageSpeed_recurrence_witness :
  stroking Demo.mid_stroke /\
  Forall2 Qeq (speeds Demo.sqrt Demo.three_moves Demo.mid_stroke)
    [5; 25 # 2; 85 # 4].
Proof.
  split; [exact mid_stroke_stroking|].
  apply (proj2 (proj2 (proj2
           (averageSpeed_recurrence Demo.sqrt Demo.three_moves Demo.mid_stroke
              mid_stroke_stroking))) (0, 0)).
  - reflexivity.
  - reflexivity.
  - repeat (apply Forall2_cons; [vm_compute; reflexivity|]). apply Forall2_nil.
Defined.

Lemma some_metrics_non_negative : non_negative Demo.some_metrics.
Proof. unfold non_negative. repeat split; vm_compute; discriminate. Defined.

Lemma scores_in_unit_interval_witness :
  non_negative Demo.some_metrics /\
  exists p,
    getMetricsPayload live (Some Demo.some_metrics) 30 9000 0 0 = Some p /\
    0 <= confidence_score (confidence p) <= 1 /\
    0 <= redraw_rate (confidence p).
Proof.
  split; [exact some_metrics_non_negative|].
  eexists. split; [reflexivity|].
  pose proof (scores_in_unit_interval live Demo.some_metrics 30 9000 0 0 _
                some_metrics_non_negative eq_refl) as (Hc & _ & _ & _ & Hr & _).
  split; [exact Hc | exact Hr].
Defined.

(** C2, as stated, fails: after two clears and two undos the metrics have
    [undoCount = 2] and [strokeCount = 0], and the redraw rate is 2. *)
Lemma redraw_rate_above_one :
  let cm := fst (getMetrics 1000 Demo.two_undos) in
  non_negative cm /\
  exists p,
    getMetricsPayload live (Some cm) 60 1000 0 0 = Some p /\
    redraw_rate (confidence p) == 2 /\
    ~ (0 <= redraw_rate (confidence p) <= 1).
Proof.
  cbn zeta. split.
  - unfold non_negative. repeat split; vm_compute; discriminate.
  - eexists. split; [reflexivity|]. split; [vm_compute; reflexivity|].
    intros [_ Hle]. vm_compute in Hle. apply Hle. reflexivity.
Qed.

Lemma panic_detected_iff_witness :
  exists p,
    getMetricsPayload live (Some (mkMetrics 12 0 0 4000 0 0 150)) 6 0 0 0 = Some p /\
    panic_detected (efficiency p) = true.
Proof.
  eexists. split; [reflexivity|].
  apply (proj1 (proj2
           (panic_detected_iff live (mkMetrics 12 0 0 4000 0 0 150) 6 0 0 0 _
              eq_refl))).
  split; vm_compute; reflexivity.
Defined.

Lemma undoStack_bounded_witness :
  List.length (tl Demo.fifty_one) = 50%nat /\
  undoStack (saveEach Demo.fifty_one (mount (Demo.canvas "") true 0))
  = tl Demo.fifty_one.
Proof.
  split; [reflexivity|].
  exact (proj2 (proj2 (proj2 (proj2 undoStack_bounded)))
           (Demo.marks 1) (tl Demo.fifty_one) (mkCanvas true ""%string) true 0%Z
           eq_refl).
Defined.



Lemma saveState_clears_redo_witness :
  redoStack (saveState (Demo.showing "c" false ["a"%string] ["r"%string])) = [].
Proof.
  exact (proj1 (saveState_clears_redo
                  (Demo.showing "c" false ["a"%string] ["r"%string])
                  (mkCanvas true "c"%string) eq_refl)).
Defined.

Lemma empty_stack_noop_witness :
  undo (Demo.showing "c" false [] ["r"%string])
  = Demo.showing "c" false [] ["r"%string].
Proof.
  exact (proj1 (empty_stack_noop (Demo.showing "c" false [] ["r"%string])) eq_refl).
Defined.

(** C9, as stated, fails: without a canvas [clear] still changes the
    metrics. *)
Lemma clear_without_canvas_counts :
  let st := mount (Surface := string) None true 0 in
  canvasRef st = None /\
  ~ clearCount (metrics (clear st)) == clearCount (metrics st) /\
  metrics (clear st) <> metrics st.
Proof.
  cbn zeta. split; [reflexivity|]. split.
  - vm_compute. discriminate.
  - discriminate.
Qed.

Lemma missing_surface_witness :
  clearCount (metrics (clear (mount (Surface := string) None true 0)))
  = 0 + 1.
Proof.
  destruct (missing_surface (mount (Surface := string) None true 0) eq_refl)
    as (_ & _ & _ & _ & _ & _ & Hcount & _).
  exact Hcount.
Defined.

End Runs.


(** ** More on the history *)

Section HistoryFacts.

Import DrawingCanvas.

Context {Surface : Type} `{CanvasAPI Surface}.

Local Abbreviation St := (State Surface).

(** On every run from the mounted component the two stacks hold at most 50
    snapshots between them; [redoStack], which no code bounds by itself, is
    therefore never longer than 50 either. *)
Theorem stacks_hold_fifty (Math_sqrt : Q -> Q) (acts : list (Action Surface))
    (cv : option (CanvasEl Surface)) (active : bool) (now : Z) :
  let st := run Math_sqrt acts (mount cv active now) in
  (List.length (undoStack st) + List.length (redoStack st) <= 50)%nat /\
  (List.length (redoStack st) <= 50)%nat.
Proof.
  cbn zeta.
  pose proof (run_within Math_sqrt acts _ (mount_within cv active now)) as Hin.
  unfold within_history, MAX_HISTORY in Hin. lia.
Qed.

Lemma undo_moves_one (st : St) :
  (List.length (undoStack (undo st)) + List.length (redoStack (undo st))
   = List.length (undoStack st) + List.length (redoStack st))%nat.
Proof.
  destruct (snoc_or_nil (undoStack st)) as [Hu | (rest & p & Hu)].
  - rewrite undo_empty by exact Hu. reflexivity.
  - destruct (canvasRef st) as [cv|] eqn:Hc.
    + rewrite (undo_applied st cv rest p Hc Hu).
      match goal with
      | |- context [restoreState p ?s] =>
          destruct (restoreState_frame p s) as (Hu' & Hr' & _)
      end.
      rewrite Hu', Hr'.
      cbn [undoStack redoStack set_undoStack set_redoStack set_metrics].
      rewrite length_push, Hu, length_app. simpl. lia.
    + rewrite undo_no_canvas by exact Hc. reflexivity.
Qed.

Lemma redo_moves_one (st : St) :
  (List.length (undoStack (redo st)) + List.length (redoStack (redo st))
   = List.length (undoStack st) + List.length (redoStack st))%nat.
Proof.
  destruct (snoc_or_nil (redoStack st)) as [Hr | (rest & n & Hr)].
  - rewrite redo_empty by exact Hr. reflexivity.
  - destruct (canvasRef st) as [cv|] eqn:Hc.
    + rewrite (redo_applied st cv rest n Hc Hr).
      match goal with
      | |- context [restoreState n ?s] =>
          destruct (restoreState_frame n s) as (Hu' & Hr' & _)
      end.
      rewrite Hu', Hr'.
      cbn [undoStack redoStack set_undoStack set_redoStack].
      rewrite length_push, Hr, length_app. simpl. lia.
    + rewrite redo_no_canvas by exact Hc. reflexivity.
Qed.

(** [undo] and [redo] move entries between the stacks without changing
    how many there are: after any series of undos and redos the two stacks
    together have as many entries as before.  (Which snapshots they are
    can change: see [redo_before_image_load].) *)
Theorem undo_redo_keep_count (Math_sqrt : Q -> Q) (acts : list (Action Surface))
    (st : St) :
  forallb (fun a => match a with callUndo | callRedo => true | _ => false end)
    acts = true ->
  (List.length (undoStack (run Math_sqrt acts st))
   + List.length (redoStack (run Math_sqrt acts st))
   = List.length (undoStack st) + List.length (redoStack st))%nat.
Proof.
  revert st. induction acts as [|a acts IH]; intros st Hall; [reflexivity|].
  cbn [forallb] in Hall. apply andb_true_iff in Hall as [Ha Hall].
  cbn [run fold_left].
  change (fold_left (fun s a0 => step Math_sqrt a0 s) acts (step Math_sqrt a st))
    with (run Math_sqrt acts (step Math_sqrt a st)).
  rewrite (IH _ Hall).
  destruct a; try discriminate Ha; cbn [step].
  - apply undo_moves_one.
  - apply redo_moves_one.
Qed.

(** Only a pointer press, [saveState], [clear], [undo] and [redo] write to
    the stacks: moves, releases, colour and style changes, reads of the
    metrics, image loads and changes of the canvas element leave both
    stacks as they are. *)
Theorem other_handlers_keep_stacks (Math_sqrt : Q -> Q) (a : Action Surface)
    (st : St) :
  writes_history a = false ->
  undoStack (step Math_sqrt a st) = undoStack st /\
  redoStack (step Math_sqrt a st) = redoStack st.
Proof.
  intro Hw. destruct a; try discriminate Hw; cbn [step].
  - apply draw_same_stacks.
  - apply stopDrawing_same_stacks.
  - split; reflexivity.
  - split; reflexivity.
  - split; reflexivity.
  - apply getMetrics_same_stacks.
  - apply img_onload_same_stacks.
  - split; reflexivity.
  - split; reflexivity.
Qed.

(** *** Undo and redo, up to the loaded image *)

Lemma undo_then_load (t : St) (cv : CanvasEl Surface) older p :
  canvasRef t = Some cv -> ctx2d cv = true -> undoStack t = older ++ [p] ->
  let t2 := img_onload (List.length (loading t)) (undo t) in
  loading (undo t) = loading t ++ [p] /\
  canvasRef t2 = Some (mkCanvas true (drawImage p (fillBackground (surface cv)))) /\
  loading t2 = loading t /\
  undoStack t2 = older /\
  redoStack t2 = redoStack t ++ [toDataURL (surface cv)] /\
  metrics t2 = set_undoCount (undoCount (metrics t) + 1) (metrics t).
Proof.
  intros Hc Hx Hu. cbn zeta. rewrite (undo_applied t cv older p Hc Hu).
  match goal with
  | |- context [restoreState p ?t0] =>
      set (t1 := t0);
      assert (Ht1 : canvasRef t1 = Some cv) by exact Hc;
      pose proof (restoreState_loading p t1 cv Ht1 Hx) as Hl1;
      destruct (restored p t1 cv Ht1 Hx) as (Hc2 & Hl2 & Hu2 & Hr2 & Hm2)
  end.
  change (loading t1) with (loading t) in *.
  rewrite Hl1, Hc2, Hl2, Hu2, Hr2, Hm2. repeat split; reflexivity.
Qed.

Lemma redo_then_load (t : St) (cv : CanvasEl Surface) newer n :
  canvasRef t = Some cv -> ctx2d cv = true -> redoStack t = newer ++ [n] ->
  let t2 := img_onload (List.length (loading t)) (redo t) in
  loading (redo t) = loading t ++ [n] /\
  canvasRef t2 = Some (mkCanvas true (drawImage n (fillBackground (surface cv)))) /\
  loading t2 = loading t /\
  undoStack t2 = undoStack t ++ [toDataURL (surface cv)] /\
  redoStack t2 = newer /\
  metrics t2 = metrics t.
Proof.
  intros Hc Hx Hr. cbn zeta. rewrite (redo_applied t cv newer n Hc Hr).
  match goal with
  | |- context [restoreState n ?t0] =>
      set (t1 := t0);
      assert (Ht1 : canvasRef t1 = Some cv) by exact Hc;
      pose proof (restoreState_loading n t1 cv Ht1 Hx) as Hl1;
      destruct (restored n t1 cv Ht1 Hx) as (Hc2 & Hl2 & Hu2 & Hr2 & Hm2)
  end.
  change (loading t1) with (loading t) in *.
  rewrite Hl1, Hc2, Hl2, Hu2, Hr2, Hm2. repeat split; reflexivity.
Qed.

Lemma clear_with_canvas (st : St) (cv : CanvasEl Surface) :
  canvasRef st = Some cv -> ctx2d cv = true ->
  clear st
  = paint fillBackground
      (set_metrics (set_clearCount (clearCount (metrics st) + 1) (metrics st))
         (saveState st)).
Proof.
  intros Hc Hx. unfold clear.
  assert (Hm : metrics (saveState st) = metrics st).
  { unfold saveState. rewrite Hc. reflexivity. }
  rewrite Hm. cbn [canvasRef set_metrics]. rewrite saveState_canvasRef, Hc, Hx.
  reflexivity.
Qed.

(** A [clear] can be undone.  With a canvas and its 2D context, [clear]
    followed by [undo] asks for the image the canvas showed before the
    [clear]; once it has loaded the canvas shows it, [redoStack] holds the
    cleared canvas, [undoStack] is what it was before the [clear] (when it
    was not full), and [clearCount] and [undoCount] have each gone up by
    one. *)
Theorem clear_can_be_undone (st : St) (cv : CanvasEl Surface) :
  canvasRef st = Some cv -> ctx2d cv = true ->
  let s := toDataURL (surface cv) in
  let st1 := undo (clear st) in
  let st2 := img_onload (List.length (loading st)) st1 in
  loading st1 = loading st ++ [s] /\
  canvasRef st2
  = Some (mkCanvas true
            (drawImage s (fillBackground (fillBackground (surface cv))))) /\
  redoStack st2 = [toDataURL (fillBackground (surface cv))] /\
  ((List.length (undoStack st) < 50)%nat -> undoStack st2 = undoStack st) /\
  clearCount (metrics st2) = clearCount (metrics st) + 1 /\
  undoCount (metrics st2) = undoCount (metrics st) + 1.
Proof.
  intros Hc Hx. cbn zeta.
  destruct (saveState_clears_redo_aux st cv Hc) as (Hr & older & Hu & Hl & Hkeep).
  set (t := clear st).
  assert (Ht : t = paint fillBackground
                     (set_metrics
                        (set_clearCount (clearCount (metrics st) + 1) (metrics st))
                        (saveState st)))
    by (apply clear_with_canvas with (cv := cv); assumption).
  assert (Hcs : canvasRef (saveState st) = Some cv)
    by (rewrite saveState_canvasRef; exact Hc).
  assert (Htc : canvasRef t = Some (mkCanvas true (fillBackground (surface cv)))).
  { rewrite Ht. unfold paint. cbn [canvasRef set_metrics]. rewrite Hcs.
    cbn. rewrite Hx. reflexivity. }
  assert (Htu : undoStack t = older ++ [toDataURL (surface cv)]).
  { rewrite Ht. unfold paint. cbn [canvasRef set_metrics]. rewrite Hcs.
    cbn. exact Hu. }
  assert (Htr : redoStack t = []).
  { rewrite Ht. unfold paint. cbn [canvasRef set_metrics]. rewrite Hcs.
    cbn. exact Hr. }
  assert (Htl : loading t = loading st).
  { rewrite Ht. unfold paint. cbn [canvasRef set_metrics]. rewrite Hcs.
    cbn. exact Hl. }
  assert (Htm : metrics t
                = set_clearCount (clearCount (metrics st) + 1) (metrics st)).
  { rewrite Ht. unfold paint. cbn [canvasRef set_metrics]. rewrite Hcs.
    reflexivity. }
  destruct (undo_then_load t _ older (toDataURL (surface cv)) Htc eq_refl Htu)
    as (H1 & H2 & _ & H4 & H5 & H6).
  rewrite Htl in H1, H2, H4, H5, H6. rewrite Htr in H5. rewrite Htm in H6.
  cbn [surface] in H2, H5.
  split; [exact H1|]. split; [exact H2|]. split; [exact H5|].
  split; [intro Hlt; rewrite H4; apply Hkeep, Hlt|].
  rewrite H6. split; reflexivity.
Qed.

(** [redo] followed by [undo] is a round trip as well.  With a canvas and
    its 2D context and [n] on top of [redoStack]: [redo] asks for [n]; once
    [n] is on the canvas and serialises back to [n], [undo] asks for the
    image that was on the canvas before the [redo] and leaves both stacks as
    they were; only [undoCount] has gone up by one. *)
Theorem redo_undo_round_trip (st : St) (cv : CanvasEl Surface) newer n :
  canvasRef st = Some cv -> ctx2d cv = true -> redoStack st = newer ++ [n] ->
  toDataURL (drawImage n (fillBackground (surface cv))) = n ->
  let s := toDataURL (surface cv) in
  let k := List.length (loading st) in
  let st2 := img_onload k (redo st) in
  let st3 := undo st2 in
  loading (redo st) = loading st ++ [n] /\
  loading st3 = loading st ++ [s] /\
  undoStack st3 = undoStack st /\
  redoStack st3 = redoStack st /\
  metrics st3 = set_undoCount (undoCount (metrics st) + 1) (metrics st).
Proof.
  intros Hc Hx Hr Hrt. cbn zeta.
  destruct (redo_then_load st cv newer n Hc Hx Hr) as (H1 & H2 & H3 & H4 & H5 & H6).
  set (st2 := img_onload (List.length (loading st)) (redo st)) in *.
  split; [exact H1|].
  rewrite (undo_applied st2 _ (undoStack st) (toDataURL (surface cv)) H2 H4).
  match goal with
  | |- context [restoreState ?u ?t0] =>
      set (t1 := t0);
      assert (Ht1 : canvasRef t1
                    = Some (mkCanvas true (drawImage n (fillBackground (surface cv)))))
        by exact H2;
      destruct (restoreState_frame u t1) as (Hu1 & Hr1 & Hm1 & _);
      pose proof (restoreState_loading u t1 _ Ht1 eq_refl) as Hl1
  end.
  rewrite Hl1, Hu1, Hr1, Hm1.
  cbn [t1 loading undoStack redoStack metrics set_undoStack set_redoStack
       set_metrics surface].
  rewrite H3, H5, H6, Hrt, Hr. repeat split; reflexivity.
Qed.

End HistoryFacts.

(** ** Strokes and the metrics *)

Section Strokes.

Import DrawingCanvas.

Context {Surface : Type} `{CanvasAPI Surface}.

Variable Math_sqrt : Q -> Q.

Local Abbreviation St := (State Surface).

Ltac open_state st :=
  destruct st as [[[[|] ?]|] [|] [|] ? ? ? [? ? ? ? ? ? ?] [?|] ? ? ? ?].

Ltac unfold_handlers :=
  unfold step, startDrawing, draw, stopDrawing, saveState, clear, setColor,
    undo, redo, getMetrics, img_onload, restoreState, paint in *.

Ltac split_code :=
  cbn;
  repeat (match goal with
          | |- context [match ?x with _ => _ end] => destruct x
          end; cbn).

Ltac qlra :=
  unfold Qdiv in *;
  change (/ 2) with (1 # 2) in *;
  change (/ 1000) with (1 # 1000) in *;
  lra.

(** *** What an inactive canvas ignores *)

(** While [isActive] is false, pointer presses and moves do nothing at all:
    no snapshot is saved, no stroke counted, nothing drawn, whatever the
    series of events. *)
Theorem inactive_ignores_pointer (acts : list (Action Surface)) (st : St) :
  isActive st = false ->
  forallb press_or_move acts = true ->
  run Math_sqrt acts st = st.
Proof.
  intros Hia. induction acts as [|a acts IH]; intro Hall; [reflexivity|].
  cbn [forallb] in Hall. apply andb_true_iff in Hall as [Ha Hall].
  cbn [run fold_left].
  assert (Hstep : step Math_sqrt a st = st).
  { destruct a; try discriminate Ha; cbn [step]; unfold startDrawing, draw;
      rewrite Hia; cbn; rewrite ?orb_true_r; reflexivity. }
  rewrite Hstep. apply IH, Hall.
Qed.

(** *** The press *)

Lemma startDrawing_idle rect e now (st : St) :
  isActive st = true -> isDrawing st = false ->
  let st' := startDrawing Math_sqrt rect e now st in
  st' = set_isDrawing true
          (set_drawStartTime (inject_Z now)
             (set_metrics
                (set_strokeCount (strokeCount (metrics st) + 1) (metrics st))
                (saveState st))) /\
  canvasRef st' = canvasRef st /\
  lastPos st' = lastPos st /\
  averageSpeed (metrics st') = averageSpeed (metrics st).
Proof.
  intros Hia Hid. cbn zeta.
  assert (Hm : metrics (saveState st) = metrics st).
  { unfold saveState. destruct (canvasRef st); reflexivity. }
  assert (Heq : startDrawing Math_sqrt rect e now st
                = set_isDrawing true
                    (set_drawStartTime (inject_Z now)
                       (set_metrics
                          (set_strokeCount (strokeCount (metrics st) + 1) (metrics st))
                          (saveState st)))).
  { unfold startDrawing. rewrite Hia, Hm. cbn [negb].
    unfold draw. cbn [isDrawing isActive set_drawStartTime set_metrics].
    assert (Hd : isDrawing (saveState st) = false).
    { unfold saveState. destruct (canvasRef st); cbn; exact Hid. }
    rewrite Hd. reflexivity. }
  rewrite Heq. split; [reflexivity|].
  cbn [canvasRef lastPos metrics set_isDrawing set_drawStartTime set_metrics
       averageSpeed set_strokeCount].
  rewrite saveState_canvasRef.
  unfold saveState. destruct (canvasRef st); repeat split; reflexivity.
Qed.

(** A press on an idle, active canvas saves the snapshot, counts the stroke
    and records the start time, and that is all: [isDrawing] is still false
    for the [draw] call inside, so the point of the press is neither drawn
    nor kept as the first position of the stroke. *)
Theorem press_starts_stroke rect e now (st : St) :
  isActive st = true -> isDrawing st = false ->
  let st' := startDrawing Math_sqrt rect e now st in
  st' = set_isDrawing true
          (set_drawStartTime (inject_Z now)
             (set_metrics
                (set_strokeCount (strokeCount (metrics st) + 1) (metrics st))
                (saveState st))) /\
  canvasRef st' = canvasRef st /\
  lastPos st' = lastPos st /\
  averageSpeed (metrics st') = averageSpeed (metrics st).
Proof. exact (startDrawing_idle rect e now st). Qed.

(** *** A whole stroke *)

Lemma draw_keeps rect e (st : St) :
  let st' := draw Math_sqrt rect e st in
  isDrawing st' = isDrawing st /\ isActive st' = isActive st /\
  drawStartTime st' = drawStartTime st /\
  undoStack st' = undoStack st /\ redoStack st' = redoStack st /\
  metrics st' = set_averageSpeed (averageSpeed (metrics st')) (metrics st).
Proof.
  open_state st; unfold draw, paint; cbn; repeat split; reflexivity.
Qed.

Lemma draws_keeps (moves : list (Rect * PointerEvent)) :
  forall st : St,
    let st' := draws Math_sqrt moves st in
    isDrawing st' = isDrawing st /\ isActive st' = isActive st /\
    drawStartTime st' = drawStartTime st /\
    undoStack st' = undoStack st /\ redoStack st' = redoStack st /\
    metrics st' = set_averageSpeed (averageSpeed (metrics st')) (metrics st).
Proof.
  induction moves as [|[rect e] rest IH]; intro st; cbn zeta.
  - cbn. repeat split. destruct (metrics st); reflexivity.
  - cbn [draws fold_left fst snd].
    change (fold_left (fun s m => draw Math_sqrt (fst m) (snd m) s) rest
              (draw Math_sqrt rect e st))
      with (draws Math_sqrt rest (draw Math_sqrt rect e st)).
    destruct (IH (draw Math_sqrt rect e st)) as (H1 & H2 & H3 & H4 & H5 & H6).
    destruct (draw_keeps rect e st) as (G1 & G2 & G3 & G4 & G5 & G6).
    rewrite H1, H2, H3, H4, H5, G1, G2, G3, G4, G5.
    repeat split. rewrite H6, G6. reflexivity.
Qed.

Lemma run_moves (moves : list (Rect * PointerEvent)) :
  forall st : St,
    run Math_sqrt (map (fun m => onPointerMove (fst m) (snd m)) moves) st
    = draws Math_sqrt moves st.
Proof.
  induction moves as [|m rest IH]; intro st; [reflexivity|].
  cbn [map run fold_left step]. apply IH.
Qed.

Lemma stopDrawing_drawing now1 now2 (st : St) :
  isDrawing st = true ->
  let st' := stopDrawing now1 now2 st in
  isDrawing st' = false /\ lastPos st' = None /\
  undoStack st' = undoStack st /\ redoStack st' = redoStack st /\
  metrics st'
  = set_totalDrawingTime
      (totalDrawingTime (metrics st) + (inject_Z now2 - drawStartTime st))
      (set_lastStrokeTime (inject_Z now1) (metrics st)).
Proof.
  intro Hd. open_state st; try discriminate Hd;
    unfold stopDrawing, paint; cbn; repeat split; reflexivity.
Qed.

(** One stroke on an idle canvas, from press to release: the stroke is
    counted once, the snapshot taken at the press is on [undoStack] and
    [redoStack] is empty, the time from press to release is added to
    [totalDrawingTime], [lastStrokeTime] is the release, and [averageSpeed]
    has moved along the recurrence over the distances between the moves
    (the first move only gives the first position).  The component is idle
    again afterwards. *)
Theorem stroke_effect (down : Rect * PointerEvent) (t0 : Z)
    (moves : list (Rect * PointerEvent)) (t1 t2 : Z) (st : St)
    (cv : CanvasEl Surface) :
  isActive st = true -> isDrawing st = false -> lastPos st = None ->
  canvasRef st = Some cv -> ctx2d cv = true ->
  let st' := run Math_sqrt (stroke down t0 moves t1 t2) st in
  let a0 := averageSpeed (metrics st) in
  isDrawing st' = false /\ lastPos st' = None /\
  undoStack st' = undoStack (saveState st) /\ redoStack st' = [] /\
  metrics st'
  = mkMetrics
      (strokeCount (metrics st) + 1)
      (inject_Z t1)
      (hesitationSeconds (metrics st))
      (totalDrawingTime (metrics st) + (inject_Z t2 - inject_Z t0))
      (clearCount (metrics st))
      (undoCount (metrics st))
      match samples moves with
      | [] => a0
      | p0 :: pts => last (Spec.smoothing a0 (distances Math_sqrt p0 pts)) a0
      end.
Proof.
  intros Hia Hid Hlp Hc Hx. cbn zeta. unfold stroke.
  cbn [run fold_left step].
  change (fold_left (fun s a => step Math_sqrt a s)
            (map (fun m => onPointerMove (fst m) (snd m)) moves
             ++ [onPointerUp t1 t2])
            (startDrawing Math_sqrt (fst down) (snd down) t0 st))
    with (run Math_sqrt
            (map (fun m => onPointerMove (fst m) (snd m)) moves
             ++ [onPointerUp t1 t2])
            (startDrawing Math_sqrt (fst down) (snd down) t0 st)).
  unfold run. rewrite fold_left_app. cbn [fold_left step].
  fold (run Math_sqrt (map (fun m => onPointerMove (fst m) (snd m)) moves)
          (startDrawing Math_sqrt (fst down) (snd down) t0 st)).
  rewrite run_moves.
  destruct (startDrawing_idle (fst down) (snd down) t0 st Hia Hid)
    as (Hst1 & Hc1 & Hlp1 & Ha1).
  set (st1 := startDrawing Math_sqrt (fst down) (snd down) t0 st) in *.
  assert (Hd1 : isDrawing st1 = true) by (rewrite Hst1; reflexivity).
  assert (Hia1 : isActive st1 = true).
  { rewrite Hst1. cbn. unfold saveState. rewrite Hc. exact Hia. }
  assert (Hs1 : stroking st1).
  { split; [exact Hd1|]. split; [exact Hia1|].
    exists cv. rewrite Hc1. split; assumption. }
  assert (Hm1 : metrics st1
                = set_strokeCount (strokeCount (metrics st) + 1) (metrics st))
    by (rewrite Hst1; reflexivity).
  assert (Hdst1 : drawStartTime st1 = inject_Z t0) by (rewrite Hst1; reflexivity).
  assert (Hu1 : undoStack st1 = undoStack (saveState st))
    by (rewrite Hst1; reflexivity).
  assert (Hr1 : redoStack st1 = []).
  { rewrite Hst1. cbn. unfold saveState. rewrite Hc. reflexivity. }
  destruct (draws_keeps moves st1) as (K1 & K2 & K3 & K4 & K5 & K6).
  assert (Hav : averageSpeed (metrics (draws Math_sqrt moves st1))
                = match samples moves with
                  | [] => averageSpeed (metrics st)
                  | p0 :: pts =>
                      last (Spec.smoothing (averageSpeed (metrics st))
                              (distances Math_sqrt p0 pts))
                        (averageSpeed (metrics st))
                  end).
  { rewrite draws_last, Ha1.
    destruct moves as [|[rect e] rest]; [reflexivity|].
    destruct (draw_stroking Math_sqrt rect e st1 Hs1) as (Hs2 & Hlp2 & Hav2).
    rewrite Hlp1, Hlp in Hav2.
    cbn [speeds samples map fst snd]. rewrite last_cons_start, Hav2, Ha1.
    rewrite (speeds_mid_stroke Math_sqrt rest _ _ Hs2 Hlp2), Hav2, Ha1.
    reflexivity. }
  destruct (stopDrawing_drawing t1 t2 (draws Math_sqrt moves st1))
    as (S1 & S2 & S3 & S4 & S5); [rewrite K1; exact Hd1|].
  rewrite S1, S2, S3, S4, S5, K3, K4, K5, K6, Hav, Hm1, Hdst1, Hu1, Hr1.
  repeat split; reflexivity.
Qed.

(** *** Counters *)

Lemma step_counts_up (a : Action Surface) (st : St) :
  strokeCount (metrics st) <= strokeCount (metrics (step Math_sqrt a st)) /\
  clearCount (metrics st) <= clearCount (metrics (step Math_sqrt a st)) /\
  undoCount (metrics st) <= undoCount (metrics (step Math_sqrt a st)).
Proof.
  open_state st; destruct a; unfold_handlers; split_code;
    repeat split; lra.
Qed.

(** No handler ever lowers [strokeCount], [clearCount] or [undoCount]:
    along any run each of them stays or grows, so from the mounted
    component on none of them is negative. *)
Theorem counters_never_decrease (acts : list (Action Surface)) (st : St) :
  let st' := run Math_sqrt acts st in
  strokeCount (metrics st) <= strokeCount (metrics st') /\
  clearCount (metrics st) <= clearCount (metrics st') /\
  undoCount (metrics st) <= undoCount (metrics st').
Proof.
  cbn zeta. revert st. induction acts as [|a acts IH]; intro st.
  - cbn. repeat split; apply Qle_refl.
  - cbn [run fold_left].
    change (fold_left (fun s a0 => step Math_sqrt a0 s) acts (step Math_sqrt a st))
      with (run Math_sqrt acts (step Math_sqrt a st)).
    destruct (IH (step Math_sqrt a st)) as (I1 & I2 & I3).
    destruct (step_counts_up a st) as (S1 & S2 & S3).
    repeat split; eapply Qle_trans; eassumption.
Qed.

(** *** Reading the metrics twice *)

(** Of two calls of [getMetrics] with nothing in between, the later one
    returns the metrics, and leaves the state, it would have without the
    earlier one; in particular a second call at the same time changes
    nothing. *)
Theorem getMetrics_after_getMetrics (earlier now : Z) (st : St) :
  getMetrics now (snd (getMetrics earlier st)) = getMetrics now st.
Proof.
  open_state st; reflexivity.
Qed.

(** *** Metrics that can be reached *)

Section NonNegative.

Hypothesis sqrt_nonneg : forall x, 0 <= Math_sqrt x.

Lemma step_in_time (a : Action Surface) (t : Z) (st : St) :
  in_time t st -> chronological t [a] ->
  in_time (clock_after t a) (step Math_sqrt a st).
Proof.
  unfold in_time, non_negative.
  open_state st; destruct a; cbn [chronological clock_after];
    intros (Hnn & Hl & Hd) Hch; cbn in Hnn, Hl, Hd;
    destruct Hnn as (N1 & N2 & N3 & N4 & N5 & N6 & N7);
    repeat match type of Hch with
           | _ /\ _ => let Hz := fresh "Hz" in
                       destruct Hch as [Hz Hch]; rewrite Zle_Qle in Hz
           end;
    unfold_handlers; split_code; unfold distance;
    try match goal with
        | |- context [Math_sqrt ?x] => pose proof (sqrt_nonneg x)
        end;
    repeat split; qlra.
Qed.

Lemma run_in_time (acts : list (Action Surface)) :
  forall (t : Z) (st : St),
    in_time t st -> chronological t acts ->
    in_time (clock_at t acts) (run Math_sqrt acts st).
Proof.
  induction acts as [|a acts IH]; intros t st Hin Hch; [exact Hin|].
  cbn [run clock_at fold_left].
  change (fold_left (fun s a0 => step Math_sqrt a0 s) acts (step Math_sqrt a st))
    with (run Math_sqrt acts (step Math_sqrt a st)).
  change (fold_left clock_after acts (clock_after t a))
    with (clock_at (clock_after t a) acts).
  apply IH.
  - apply step_in_time; [exact Hin|].
    destruct a; cbn [chronological] in *; tauto.
  - destruct a; cbn [chronological clock_after] in *; tauto.
Qed.

(** With a square root that is never negative and a clock that starts at
    or after 0 and never runs backwards, every state a run reaches from the
    mounted component has metrics with non-negative fields, and stored
    times that are not in the future. *)
Theorem reachable_metrics_non_negative (acts : list (Action Surface))
    (cv : option (CanvasEl Surface)) (active : bool) (t0 : Z) :
  (0 <= t0)%Z -> chronological t0 acts ->
  let st := run Math_sqrt acts (mount cv active t0) in
  non_negative (metrics st) /\
  lastStrokeTime (metrics st) <= inject_Z (clock_at t0 acts) /\
  drawStartTime st <= inject_Z (clock_at t0 acts).
Proof.
  intros H0 Hch. cbn zeta.
  apply (run_in_time acts t0 (mount cv active t0)); [|exact Hch].
  rewrite Zle_Qle in H0. change (inject_Z 0) with 0 in H0.
  unfold in_time, non_negative. cbn.
  repeat split; lra.
Qed.

End NonNegative.

End Strokes.

(** ** More on the scores *)

Section Scores.

Import DrawingCanvas App.

Lemma toFixed2_small (x : Q) :
  0 <= x <= 1 ->
  JS.toFixed2 x = inject_Z (JS.nearest_hundredth x) / 100.
Proof.
  intros [H0 H1]. unfold JS.toFixed2.
  assert (Hs : JS.ltb x 0 = false) by (apply ltb_ge; exact H0).
  rewrite Hs.
  destruct (Qle_bool _ x) eqn:Ebig; [|reflexivity].
  apply Qle_bool_iff in Ebig. exfalso. lra.
Qed.

Lemma nearest_hundredth_close (x : Q) :
  inject_Z (JS.nearest_hundredth x) / 100 - x <= 1 # 200 /\
  x - inject_Z (JS.nearest_hundredth x) / 100 <= 1 # 200.
Proof.
  unfold JS.nearest_hundredth.
  pose proof (Qfloor_le (x * 100 + (1 # 2))) as Hle.
  pose proof (Qlt_floor (x * 100 + (1 # 2))) as Hlt.
  rewrite inject_Z_plus in Hlt. change (inject_Z 1) with 1 in Hlt.
  set (n := inject_Z (Qfloor (x * 100 + (1 # 2)))) in *.
  unfold Qdiv. change (/ 100) with (1 # 100). split; lra.
Qed.

Lemma clamp_mono (x y : Q) :
  x <= y ->
  JS.Math_min 1 (JS.Math_max 0 x) <= JS.Math_min 1 (JS.Math_max 0 y).
Proof.
  intro Hxy. unfold JS.Math_min, JS.Math_max.
  apply Q.min_le_compat_l, Q.max_le_compat_l, Hxy.
Qed.

Lemma toFixed2_mono_unit (x y : Q) :
  0 <= x -> x <= y -> y <= 1 -> JS.toFixed2 x <= JS.toFixed2 y.
Proof.
  intros H0 Hxy H1.
  rewrite (toFixed2_small x), (toFixed2_small y) by (split; lra).
  assert (Hn : (JS.nearest_hundredth x <= JS.nearest_hundredth y)%Z).
  { unfold JS.nearest_hundredth. apply Qfloor_resp_le. lra. }
  rewrite Zle_Qle in Hn.
  unfold Qdiv. change (/ 100) with (1 # 100). lra.
Qed.

Lemma score_mono (x y : Q) :
  x <= y ->
  JS.toFixed2 (JS.Math_min 1 (JS.Math_max 0 x))
  <= JS.toFixed2 (JS.Math_min 1 (JS.Math_max 0 y)).
Proof.
  intro Hxy. apply toFixed2_mono_unit.
  - apply clamp_unit.
  - apply clamp_mono, Hxy.
  - apply clamp_unit.
Qed.

Lemma clamp_above (x : Q) : 1 <= x -> JS.Math_min 1 (JS.Math_max 0 x) == 1.
Proof.
  intro Hx. unfold JS.Math_min, JS.Math_max.
  rewrite Q.max_r by lra. apply Q.min_l, Hx.
Qed.

Lemma clamp_below (x : Q) : x <= 0 -> JS.Math_min 1 (JS.Math_max 0 x) == 0.
Proof.
  intro Hx. unfold JS.Math_min, JS.Math_max.
  rewrite Q.max_l by exact Hx. apply Q.min_r. discriminate.
Qed.

Lemma toFixed2_eq_compat (x y : Q) :
  0 <= x <= 1 -> x == y -> JS.toFixed2 x == JS.toFixed2 y.
Proof.
  intros [H0 H1] Heq. apply Qle_antisym; apply toFixed2_mono_unit; lra.
Qed.

Variables (ph : Phase) (timeLeft : Q) (now : Z)
  (lastCommentTime commentCount : Q).

Local Abbreviation payload cm :=
  (getMetricsPayload ph (Some cm) timeLeft now lastCommentTime commentCount).

(** The three scores of a payload are the clamped values rounded to
    hundredths: each is [n / 100] for a whole number [n] from 0 to 100, and
    differs from the clamped value by at most 0.005. *)
Theorem scores_are_hundredths (cm : DrawingMetrics) (p : MetricsPayload) :
  non_negative cm -> payload cm = Some p ->
  let raw_confidence :=
    JS.Math_min 1 (JS.Math_max 0
      (strokeCount cm / 40 + averageSpeed cm / 200 - hesitationSeconds cm / 10)) in
  let raw_efficiency :=
    JS.Math_min 1 (JS.Math_max 0
      (strokeCount cm / (totalDrawingTime cm / 1000 + 1) * 5)) in
  let raw_clarity := JS.Math_min 1 (JS.Math_max 0 (strokeCount cm / 25)) in
  Forall
    (fun sr : Q * Q =>
       (exists n : Z, (0 <= n <= 100)%Z /\ fst sr = inject_Z n / 100) /\
       fst sr - snd sr <= 1 # 200 /\ snd sr - fst sr <= 1 # 200)
    [(confidence_score (confidence p), raw_confidence);
     (efficiency_score (efficiency p), raw_efficiency);
     (clarity_score (clarity p), raw_clarity)].
Proof.
  intros _ Hp. simpl in Hp. injection Hp as <-. cbn zeta.
  cbn [confidence efficiency clarity confidence_score efficiency_score
       clarity_score].
  assert (Hone : forall x,
             (exists n : Z,
                 (0 <= n <= 100)%Z /\
                 JS.toFixed2 (JS.Math_min 1 (JS.Math_max 0 x)) = inject_Z n / 100) /\
             JS.toFixed2 (JS.Math_min 1 (JS.Math_max 0 x))
             - JS.Math_min 1 (JS.Math_max 0 x) <= 1 # 200 /\
             JS.Math_min 1 (JS.Math_max 0 x)
             - JS.toFixed2 (JS.Math_min 1 (JS.Math_max 0 x)) <= 1 # 200).
  { intro x. pose proof (clamp_unit x) as Hu.
    rewrite (toFixed2_small _ Hu). split.
    - exists (JS.nearest_hundredth (JS.Math_min 1 (JS.Math_max 0 x))).
      split; [|reflexivity]. split.
      + apply nearest_hundredth_nonneg, Hu.
      + apply nearest_hundredth_le_100, Hu.
    - apply nearest_hundredth_close. }
  repeat (apply Forall_cons; [apply Hone|]). apply Forall_nil.
Qed.

(** More strokes and more speed never lower the confidence score, more
    hesitation never raises it; and the clarity score never falls as the
    strokes add up, reaching 1 from 25 strokes on. *)
Theorem scores_follow_the_metrics (cm1 cm2 : DrawingMetrics)
    (p1 p2 : MetricsPayload) :
  payload cm1 = Some p1 -> payload cm2 = Some p2 ->
  strokeCount cm1 <= strokeCount cm2 ->
  (averageSpeed cm1 <= averageSpeed cm2 ->
   hesitationSeconds cm2 <= hesitationSeconds cm1 ->
   confidence_score (confidence p1) <= confidence_score (confidence p2)) /\
  clarity_score (clarity p1) <= clarity_score (clarity p2) /\
  (25 <= strokeCount cm2 -> clarity_score (clarity p2) == 1).
Proof.
  intros Hp1 Hp2 Hs. simpl in Hp1, Hp2.
  injection Hp1 as <-. injection Hp2 as <-.
  cbn [confidence clarity confidence_score clarity_score].
  split; [|split].
  - intros Ha Hh. apply score_mono.
    unfold Qdiv. change (/ 40) with (1 # 40). change (/ 200) with (1 # 200).
    change (/ 10) with (1 # 10). lra.
  - apply score_mono. unfold Qdiv. change (/ 25) with (1 # 25). lra.
  - intro H25.
    assert (Hc : JS.Math_min 1 (JS.Math_max 0 (strokeCount cm2 / 25)) == 1).
    { apply clamp_above. unfold Qdiv. change (/ 25) with (1 # 25). lra. }
    rewrite (toFixed2_eq_compat _ 1 (clamp_unit _) Hc). reflexivity.
Qed.

(** The efficiency score is 0 before the first stroke and 1 as soon as five
    times the strokes reach the seconds drawn plus one. *)
Theorem efficiency_ends (cm : DrawingMetrics) (p : MetricsPayload) :
  non_negative cm -> payload cm = Some p ->
  (strokeCount cm == 0 -> efficiency_score (efficiency p) == 0) /\
  (totalDrawingTime cm / 1000 + 1 <= strokeCount cm * 5 ->
   efficiency_score (efficiency p) == 1).
Proof.
  intros (Hs & _ & _ & Ht & _) Hp. simpl in Hp. injection Hp as <-.
  cbn [efficiency efficiency_score].
  assert (Hden : 0 < totalDrawingTime cm / 1000 + 1).
  { unfold Qdiv. change (/ 1000) with (1 # 1000). lra. }
  split.
  - intro Hz.
    assert (Hc : JS.Math_min 1 (JS.Math_max 0
                   (strokeCount cm / (totalDrawingTime cm / 1000 + 1) * 5)) == 0).
    { apply clamp_below. rewrite Hz. unfold Qdiv. rewrite Qmult_0_l. discriminate. }
    rewrite (toFixed2_eq_compat _ 0 (clamp_unit _) Hc). reflexivity.
  - intro Hfast.
    assert (Hc : JS.Math_min 1 (JS.Math_max 0
                   (strokeCount cm / (totalDrawingTime cm / 1000 + 1) * 5)) == 1).
    { apply clamp_above.
      assert (Hq : 1 # 5 <= strokeCount cm / (totalDrawingTime cm / 1000 + 1)).
      { apply Qle_shift_div_l; [exact Hden|]. lra. }
      lra. }
    rewrite (toFixed2_eq_compat _ 1 (clamp_unit _) Hc). reflexivity.
Qed.

(** Panic is only ever reported together with a rising trend: the speed
    that sets [panic_detected] is above the one that sets the trend. *)
Theorem panic_means_rising (cm : DrawingMetrics) (p : MetricsPayload) :
  payload cm = Some p ->
  panic_detected (efficiency p) = true -> trend (confidence p) = rising.
Proof.
  intros Hp. simpl in Hp. injection Hp as <-.
  cbn [efficiency confidence panic_detected trend].
  intro Hpanic. apply andb_true_iff in Hpanic as [_ Hfast].
  apply gtb_gt in Hfast.
  assert (Hr : JS.gtb (averageSpeed cm) 60 = true) by (apply gtb_gt; lra).
  rewrite Hr. reflexivity.
Qed.

End Scores.

(** ** The debug overlay *)

Section Overlay.

Import DrawingCanvas App.

Lemma floor_lt (x : Q) (z : Z) : (Qfloor x < z)%Z <-> x < inject_Z z.
Proof.
  split; intro Hlt.
  - pose proof (Qlt_floor x) as Hx.
    assert (Hz : (Qfloor x + 1 <= z)%Z) by lia.
    rewrite Zle_Qle in Hz. lra.
  - destruct (Z.lt_ge_cases (Qfloor x) z) as [Hok | Hge]; [exact Hok|].
    rewrite Zle_Qle in Hge. pose proof (Qfloor_le x). lra.
Qed.

Lemma MetricRow_bar_aux (value : Q) :
  (MetricRow value = None <-> value < - (1 # 20) \/ 21 # 20 <= value) /\
  (- (1 # 20) <= value -> value < 21 # 20 ->
   exists n : nat,
     (n <= 10)%nat /\ Z.of_nat n = JS.Math_round (value * 10) /\
     MetricRow value
     = Some (JS.copies n full_block, JS.copies (10 - n) light_shade)).
Proof.
  unfold MetricRow, JS.String_repeat.
  set (bars := JS.Math_round (value * 10)).
  assert (Hneg : (bars < 0)%Z <-> value < - (1 # 20)).
  { unfold bars, JS.Math_round. rewrite floor_lt. change (inject_Z 0) with 0.
    split; intro; lra. }
  assert (Hbig : (bars < 11)%Z <-> value < 21 # 20).
  { unfold bars, JS.Math_round. rewrite floor_lt. change (inject_Z 11) with 11.
    split; intro; lra. }
  split.
  - destruct (bars <? 0)%Z eqn:E0.
    + apply Z.ltb_lt in E0. split; [|reflexivity].
      intros _. left. apply Hneg, E0.
    + apply Z.ltb_ge in E0.
      destruct (10 - bars <? 0)%Z eqn:E1.
      * apply Z.ltb_lt in E1. split; [|reflexivity].
        intros _. right. apply Qnot_lt_le. intro Hlt. apply Hbig in Hlt. lia.
      * apply Z.ltb_ge in E1. split; [discriminate|].
        intros [Hlow | Hhigh].
        -- apply Hneg in Hlow. lia.
        -- exfalso. assert (Hb : (bars < 11)%Z) by lia.
           apply Hbig in Hb. lra.
  - intros Hlow Hhigh.
    assert (H0 : (0 <= bars)%Z).
    { destruct (Z.lt_ge_cases bars 0) as [Hlt | Hge]; [|exact Hge].
      apply Hneg in Hlt. lra. }
    assert (H10 : (bars < 11)%Z) by (apply Hbig, Hhigh).
    exists (Z.to_nat bars). split; [lia|]. split; [lia|].
    assert (E0 : (bars <? 0)%Z = false) by (apply Z.ltb_ge; lia).
    assert (E1 : (10 - bars <? 0)%Z = false) by (apply Z.ltb_ge; lia).
    rewrite E0, E1. repeat f_equal. lia.
Qed.

(** [MetricRow] throws exactly for the values that round to fewer than 0 or
    more than 10 bars, those below -0.05 or from 1.05 on; for every other
    value the bar has ten characters, as many of them full as ten times the
    value, rounded. *)
Theorem MetricRow_bar (value : Q) :
  (MetricRow value = None <-> value < - (1 # 20) \/ 21 # 20 <= value) /\
  (- (1 # 20) <= value -> value < 21 # 20 ->
   exists n : nat,
     (n <= 10)%nat /\ Z.of_nat n = JS.Math_round (value * 10) /\
     MetricRow value
     = Some (JS.copies n full_block, JS.copies (10 - n) light_shade)).
Proof. exact (MetricRow_bar_aux value). Qed.

(** The overlay never throws on a payload built from non-negative metrics:
    it shows three bars of ten characters each. *)
Theorem overlay_renders ph (cm : DrawingMetrics) timeLeft now lastCommentTime
    commentCount (p : MetricsPayload) :
  non_negative cm ->
  getMetricsPayload ph (Some cm) timeLeft now lastCommentTime commentCount
  = Some p ->
  exists n1 n2 n3 : nat,
    (n1 <= 10 /\ n2 <= 10 /\ n3 <= 10)%nat /\
    DebugOverlay (Some p)
    = Some (map (fun n => Some (JS.copies n full_block,
                                JS.copies (10 - n) light_shade))
              [n1; n2; n3]).
Proof.
  intros _ Hp. simpl in Hp. injection Hp as <-.
  unfold DebugOverlay. cbn [DEV_MODE negb confidence efficiency clarity
    confidence_score efficiency_score clarity_score map].
  assert (Hrow : forall x,
             exists n : nat,
               (n <= 10)%nat /\
               MetricRow (JS.toFixed2 (JS.Math_min 1 (JS.Math_max 0 x)))
               = Some (JS.copies n full_block, JS.copies (10 - n) light_shade)).
  { intro x. pose proof (toFixed2_unit _ (clamp_unit x)) as [H0 H1].
    destruct (proj2 (MetricRow_bar_aux
                       (JS.toFixed2 (JS.Math_min 1 (JS.Math_max 0 x)))))
      as (n & Hn & _ & Hr); try lra.
    exists n. split; assumption. }
  destruct (Hrow (strokeCount cm / 40 + averageSpeed cm / 200
                  - hesitationSeconds cm / 10)) as (n1 & L1 & R1).
  destruct (Hrow (strokeCount cm / (totalDrawingTime cm / 1000 + 1) * 5))
    as (n2 & L2 & R2).
  destruct (Hrow (strokeCount cm / 25)) as (n3 & L3 & R3).
  exists n1, n2, n3. split; [auto|]. rewrite R1, R2, R3. reflexivity.
Qed.

End Overlay.

(** ** The countdown *)

Section Countdown.

Import App.

Lemma ticks_not_playing (n : nat) (g : GameState) (t : Q) :
  g <> PLAYING -> ticks n g t = (g, t).
Proof.
  revert g t. induction n as [|n IH]; intros g t Hg; [reflexivity|].
  cbn [ticks]. destruct g; try congruence; cbn [tick]; apply IH; exact Hg.
Qed.

Lemma ticks_from_whole (n : nat) :
  forall (k : nat) (t : Q),
    (1 <= k)%nat -> t == inject_Z (Z.of_nat k) ->
    fst (ticks n PLAYING t) = (if (n <? k)%nat then PLAYING else RESULTS) /\
    snd (ticks n PLAYING t)
    == (if (n <? k)%nat then inject_Z (Z.of_nat (k - n)) else 0).
Proof.
  induction n as [|n IH]; intros k t Hk Ht.
  - cbn [ticks fst snd]. assert (E : (0 <? k)%nat = true) by (apply Nat.ltb_lt; lia).
    rewrite E, Nat.sub_0_r. split; [reflexivity | exact Ht].
  - cbn [ticks tick].
    destruct (Qle_bool t 1) eqn:E1.
    + apply Qle_bool_iff in E1. rewrite Ht in E1.
      change 1 with (inject_Z 1) in E1. rewrite <- Zle_Qle in E1.
      assert (k = 1%nat) by lia. subst k.
      rewrite ticks_not_playing by discriminate.
      assert (E : (S n <? 1)%nat = false) by (apply Nat.ltb_ge; lia).
      rewrite E. split; reflexivity.
    + assert (Hgt : ~ t <= 1).
      { intro Hle. apply Qle_bool_iff in Hle. congruence. }
      rewrite Ht in Hgt. change 1 with (inject_Z 1) in Hgt.
      rewrite <- Zle_Qle in Hgt.
      assert (Ht' : t - 1 == inject_Z (Z.of_nat (k - 1))).
      { rewrite Ht. replace (Z.of_nat (k - 1)) with (Z.of_nat k - 1)%Z by lia.
        unfold Zminus. rewrite inject_Z_plus.
        change (inject_Z (-1)) with (- (1)). reflexivity. }
      destruct (IH (k - 1)%nat (t - 1)) as [Hg Hs]; [lia | exact Ht' |].
      rewrite Hg, Hs.
      destruct (Nat.ltb_spec n (k - 1)); destruct (Nat.ltb_spec (S n) k);
        try lia; split; try reflexivity.
      replace (k - 1 - n)%nat with (k - S n)%nat by lia. reflexivity.
Qed.

Lemma ticks_in_range (n : nat) :
  forall (g : GameState) (t : Q),
    0 <= t -> 0 <= snd (ticks n g t) /\ snd (ticks n g t) <= t.
Proof.
  induction n as [|n IH]; intros g t Ht.
  - cbn. split; [exact Ht | apply Qle_refl].
  - cbn [ticks]. destruct g; cbn [tick]; try (apply IH; exact Ht).
    destruct (Qle_bool t 1) eqn:E1.
    + rewrite ticks_not_playing by discriminate. cbn. split; [apply Qle_refl | exact Ht].
    + assert (Hgt : ~ t <= 1).
      { intro Hle. apply Qle_bool_iff in Hle. congruence. }
      apply Qnot_le_lt in Hgt.
      destruct (IH PLAYING (t - 1)) as [H0 H1]; [lra|].
      split; [exact H0 | lra].
Qed.

(** A game started with a whole number [k >= 1] of seconds (60 in the app)
    is being played for exactly [k] firings of the interval: after [n < k]
    of them [k - n] seconds are left, the [k]-th ends the game with 0
    seconds left, and later firings change nothing.  Whatever the start,
    the time left never becomes negative and never grows. *)
Theorem countdown_runs_out (n k : nat) (g : GameState) (t : Q) :
  ((1 <= k)%nat ->
   fst (ticks n PLAYING (inject_Z (Z.of_nat k)))
   = (if (n <? k)%nat then PLAYING else RESULTS) /\
   snd (ticks n PLAYING (inject_Z (Z.of_nat k)))
   == (if (n <? k)%nat then inject_Z (Z.of_nat (k - n)) else 0)) /\
  (0 <= t -> 0 <= snd (ticks n g t) /\ snd (ticks n g t) <= t).
Proof.
  split.
  - intro Hk. apply ticks_from_whole; [exact Hk | reflexivity].
  - apply ticks_in_range.
Qed.

End Countdown.

(** ** Microphone samples *)

Section Samples.

Import App.

Lemma truncate_nonneg (q : Q) :
  0 <= q -> (0 <= JS.truncate q)%Z /\ inject_Z (JS.truncate q) <= q /\
            q < inject_Z (JS.truncate q) + 1.
Proof.
  intro Hq. unfold JS.truncate. destruct q as [n d]. cbn [Qnum Qden].
  assert (Hn : (0 <= n)%Z).
  { unfold Qle in Hq. cbn in Hq. lia. }
  rewrite Z.quot_div_nonneg by lia.
  change (n / Z.pos d)%Z with (Qfloor (n # d)).
  set (q := n # d) in *.
  pose proof (Qfloor_le q) as Hle. pose proof (Qlt_floor q) as Hlt.
  rewrite inject_Z_plus in Hlt. change (inject_Z 1) with 1 in Hlt.
  split; [|split; assumption].
  apply (Qfloor_resp_le 0 q Hq).
Qed.

Lemma truncate_opp (q : Q) : JS.truncate (- q) = (- JS.truncate q)%Z.
Proof.
  unfold JS.truncate. destruct q as [n d]. cbn [Qopp Qnum Qden].
  apply Z.quot_opp_l. discriminate.
Qed.

Lemma truncate_nonpos (q : Q) :
  q <= 0 -> (JS.truncate q <= 0)%Z /\ q <= inject_Z (JS.truncate q) /\
            inject_Z (JS.truncate q) - 1 < q.
Proof.
  intro Hq.
  destruct (truncate_nonneg (- q)) as (H0 & Hle & Hlt); [lra|].
  rewrite truncate_opp in H0, Hle, Hlt.
  rewrite inject_Z_opp in Hle, Hlt.
  split; [lia|]. split; lra.
Qed.

Lemma ToInt16_range (q : Q) : (-32768 <= JS.ToInt16 q <= 32767)%Z.
Proof.
  unfold JS.ToInt16.
  pose proof (Z.mod_pos_bound (JS.truncate q) 65536 eq_refl) as Hm.
  destruct (32768 <=? JS.truncate q mod 65536)%Z eqn:E.
  - apply Z.leb_le in E. lia.
  - apply Z.leb_gt in E. lia.
Qed.

Lemma ToInt16_fits (q : Q) :
  (-32768 <= JS.truncate q <= 32767)%Z -> JS.ToInt16 q = JS.truncate q.
Proof.
  intro Hr. unfold JS.ToInt16.
  destruct (Z.lt_ge_cases (JS.truncate q) 0) as [Hneg | Hpos].
  - assert (Hm : (JS.truncate q mod 65536 = JS.truncate q + 65536)%Z).
    { symmetry. apply (Z.mod_unique _ _ (-1)); lia. }
    rewrite Hm.
    assert (E : (32768 <=? JS.truncate q + 65536)%Z = true) by (apply Z.leb_le; lia).
    rewrite E. lia.
  - rewrite Z.mod_small by lia.
    assert (E : (32768 <=? JS.truncate q)%Z = false) by (apply Z.leb_gt; lia).
    rewrite E. reflexivity.
Qed.

Lemma ToInt16_wraps (q : Q) :
  (32768 <= JS.truncate q <= 65535)%Z ->
  JS.ToInt16 q = (JS.truncate q - 65536)%Z.
Proof.
  intro Hr. unfold JS.ToInt16. rewrite Z.mod_small by lia.
  assert (E : (32768 <=? JS.truncate q)%Z = true) by (apply Z.leb_le; lia).
  rewrite E. reflexivity.
Qed.

(** A microphone sample always becomes a 16-bit value.  For samples from
    -1 up to, but not including, 1 it is the sample times 32768 with the
    fraction dropped; a sample from 1 on (full scale included) wraps
    around and comes out negative. *)
Theorem pcm16_conversion (sample : Q) :
  (-32768 <= pcm16 sample <= 32767)%Z /\
  (-1 <= sample -> sample < 1 ->
   pcm16 sample = JS.truncate (sample * 32768) /\
   (0 <= sample -> (0 <= pcm16 sample)%Z) /\
   (sample <= 0 -> (pcm16 sample <= 0)%Z) /\
   inject_Z (pcm16 sample) - 1 < sample * 32768 /\
   sample * 32768 < inject_Z (pcm16 sample) + 1) /\
  (1 <= sample -> sample < 2 ->
   pcm16 sample = (JS.truncate (sample * 32768) - 65536)%Z /\
   (pcm16 sample < 0)%Z).
Proof.
  unfold pcm16. split; [apply ToInt16_range|]. split.
  - intros Hlo Hhi.
    assert (Hfit : (-32768 <= JS.truncate (sample * 32768) <= 32767)%Z
                   /\ (0 <= sample -> (0 <= JS.truncate (sample * 32768))%Z)
                   /\ (sample <= 0 -> (JS.truncate (sample * 32768) <= 0)%Z)
                   /\ inject_Z (JS.truncate (sample * 32768)) - 1 < sample * 32768
                   /\ sample * 32768 < inject_Z (JS.truncate (sample * 32768)) + 1).
    { destruct (Qlt_le_dec sample 0) as [Hneg | Hpos].
      - destruct (truncate_nonpos (sample * 32768)) as (T0 & T1 & T2); [lra|].
        assert (Hz : inject_Z (-32768 - 1) < inject_Z (JS.truncate (sample * 32768))).
        { change (inject_Z (-32768 - 1)) with (- (32769)). lra. }
        rewrite <- Zlt_Qlt in Hz.
        repeat split; intros; first [lia | lra].
      - destruct (truncate_nonneg (sample * 32768)) as (T0 & T1 & T2); [lra|].
        assert (Hz : inject_Z (JS.truncate (sample * 32768)) < inject_Z 32768).
        { change (inject_Z 32768) with 32768. lra. }
        rewrite <- Zlt_Qlt in Hz.
        repeat split; intros;
          first [lia | lra
                | destruct (truncate_nonpos (sample * 32768)) as (T3 & _);
                  [lra | lia]]. }
    destruct Hfit as (Hr & Hp & Hn & Hl & Hu).
    rewrite (ToInt16_fits _ Hr). repeat split; assumption.
  - intros Hlo Hhi.
    destruct (truncate_nonneg (sample * 32768)) as (T0 & T1 & T2); [lra|].
    assert (Hz1 : inject_Z (JS.truncate (sample * 32768)) < inject_Z 65536).
    { change (inject_Z 65536) with 65536. lra. }
    assert (Hz2 : inject_Z (32768 - 1) < inject_Z (JS.truncate (sample * 32768))).
    { change (inject_Z (32768 - 1)) with 32767. lra. }
    rewrite <- Zlt_Qlt in Hz1, Hz2.
    rewrite ToInt16_wraps by lia. split; [reflexivity | lia].
Qed.

End Samples.

(** ** Playing the commentary *)

Section Commentary.

Import DrawingCanvas App.

Lemma queued_later (clips : list Source) (limit limit' : Q) :
  queued clips limit -> limit <= limit' -> queued clips limit'.
Proof.
  intros Hq Hle. induction clips as [|a rest IH]; [exact I|].
  cbn [queued] in *. destruct Hq as [Hend Hrest].
  split; [|apply IH, Hrest].
  destruct rest as [|b rest2]; [lra | exact Hend].
Qed.

Lemma queued_snoc (clips : list Source) (limit d ct : Q) :
  queued clips limit -> 0 <= d ->
  queued (clips ++ [mkSource limit ct d]) (limit + d).
Proof.
  intros Hq Hd. induction clips as [|a rest IH].
  - cbn. split; [apply Qle_refl | exact I].
  - cbn [queued app] in *. destruct Hq as [Hend Hrest].
    split; [|apply IH, Hrest].
    destruct rest as [|b rest2]; cbn [app requested]; exact Hend.
Qed.

Lemma audio_step_queued (a : AudioStep) (p : Playback) :
  durations_ok [a] ->
  queued (sources p) (nextStartTime p) ->
  queued (sources (audio_step a p)) (nextStartTime (audio_step a p)).
Proof.
  intros Hd Hq. destruct a; cbn [audio_step sources nextStartTime].
  - apply (queued_later _ _ _ Hq). apply Q.le_max_l.
  - apply queued_snoc; [exact Hq|]. cbn in Hd. tauto.
  - exact I.
Qed.

Lemma audio_run_queued (steps : list AudioStep) :
  forall p : Playback,
    durations_ok steps ->
    queued (sources p) (nextStartTime p) ->
    queued (sources (audio_run steps p)) (nextStartTime (audio_run steps p)).
Proof.
  induction steps as [|a steps IH]; intros p Hd Hq; [exact Hq|].
  cbn [audio_run fold_left].
  change (fold_left (fun q a0 => audio_step a0 q) steps (audio_step a p))
    with (audio_run steps (audio_step a p)).
  apply IH.
  - destruct a; cbn [durations_ok] in Hd; tauto.
  - apply audio_step_queued; [|exact Hq].
    destruct a; cbn [durations_ok] in *; tauto.
Qed.

Lemma begins_after_request (s : Source) : requested s <= begins s.
Proof. unfold begins, JS.Math_max. apply Q.le_max_l. Qed.

Lemma queued_late_overlap (clips : list Source) (limit : Q) :
  queued clips limit -> late_overlap_only clips.
Proof.
  induction clips as [|a rest IH]; intro Hq; [exact I|].
  cbn [queued late_overlap_only] in *. destruct Hq as [Hend Hrest].
  split; [|apply IH, Hrest].
  destruct rest as [|b rest2]; [exact I|].
  pose proof (begins_after_request b) as Hb. unfold ends. lra.
Qed.

(** The commentary is queued, not mixed.  However the arrivals of audio,
    the ends of decoding and the clean-ups interleave, the time requested
    for each source is the requested end of the source before it, or
    later, and [nextStartTime] is at or after the last requested end.  A
    source whose requested time has passed when it is started begins at
    once, so it can still be playing when the next one begins, but by no
    more than the time it began late; a source that begins on time has
    ended when the next one begins. *)
Theorem commentary_is_queued (steps : list AudioStep) :
  durations_ok steps ->
  let p := audio_run steps fresh_playback in
  queued (sources p) (nextStartTime p) /\
  late_overlap_only (sources p).
Proof.
  intro Hd. cbn zeta.
  assert (Hq : queued (sources (audio_run steps fresh_playback))
                 (nextStartTime (audio_run steps fresh_playback)))
    by (apply audio_run_queued; [exact Hd | exact I]).
  split; [exact Hq | exact (queued_late_overlap _ _ Hq)].
Qed.

Lemma quiet_steps_keep_lastCommentTime (rest : list AudioStep) :
  forall p : Playback,
    forallb (fun a => negb (is_arrival a)) rest = true ->
    lastCommentTime (audio_run rest p) = lastCommentTime p.
Proof.
  induction rest as [|a rest IH]; intros p Hall; [reflexivity|].
  cbn [forallb] in Hall. apply andb_true_iff in Hall as [Ha Hall].
  cbn [audio_run fold_left].
  change (fold_left (fun q a0 => audio_step a0 q) rest (audio_step a p))
    with (audio_run rest (audio_step a p)).
  rewrite (IH _ Hall). destruct a; try discriminate Ha; reflexivity.
Qed.

(** [lastCommentTime] is the time of the latest arrival of audio: the ends
    of decoding and the clean-ups that follow leave it alone.  A payload
    built from it at a later time, whatever [commentCount] the caller
    holds, reports [cooldown_active] exactly while less than 5000 ms have
    passed since that arrival. *)
Theorem cooldown_follows_audio (arrival later : Z) (currentTime : Q)
    (rest : list AudioStep) (p : Playback) ph (cm : DrawingMetrics)
    timeLeft heldCount (m : MetricsPayload) :
  forallb (fun a => negb (is_arrival a)) rest = true ->
  let p' := audio_run (audioArrived arrival currentTime :: rest) p in
  getMetricsPayload ph (Some cm) timeLeft later (lastCommentTime p') heldCount
  = Some m ->
  lastCommentTime p' = inject_Z arrival /\
  (cooldown_active (commentary m) = true <-> (later < arrival + 5000)%Z).
Proof.
  intro Hquiet. cbn zeta. cbn [audio_run fold_left].
  change (fold_left (fun q a0 => audio_step a0 q) rest
            (audio_step (audioArrived arrival currentTime) p))
    with (audio_run rest (audio_step (audioArrived arrival currentTime) p)).
  rewrite (quiet_steps_keep_lastCommentTime rest _ Hquiet).
  cbn [audio_step lastCommentTime].
  intro Hm. simpl in Hm. injection Hm as <-.
  cbn [commentary cooldown_active]. split; [reflexivity|].
  rewrite ltb_lt, Zlt_Qlt, inject_Z_plus. change (inject_Z 5000) with 5000.
  split; intro; lra.
Qed.

End Commentary.

(** ** Snapshots and frames *)

Section Frames.

Import DrawingCanvas App.

Context {Surface : Type} `{CanvasAPI Surface}.

Lemma split_comma_plain (s : string) :
  JS.has_comma s = false -> JS.split_comma s = [s].
Proof.
  induction s as [|c s IH]; intro Hs; [reflexivity|].
  cbn [JS.has_comma] in Hs. apply orb_false_iff in Hs as [Hc Hs].
  cbn [JS.split_comma]. rewrite Hc, (IH Hs). reflexivity.
Qed.

Lemma split_comma_at (header rest : string) :
  JS.has_comma header = false ->
  JS.split_comma (header ++ String ","%char rest)
  = header :: JS.split_comma rest.
Proof.
  induction header as [|c h IH]; intro Hh; [reflexivity|].
  cbn [JS.has_comma] in Hh. apply orb_false_iff in Hh as [Hc Hh].
  cbn [String.append JS.split_comma]. rewrite Hc, (IH Hh). reflexivity.
Qed.

(** [getSnapshot] returns what follows the comma of the JPEG data URL, the
    base64 text; a URL without a comma gives [undefined]. *)
Theorem getSnapshot_base64 (st : State Surface) (cv : CanvasEl Surface)
    (header body : string) :
  canvasRef st = Some cv ->
  JS.has_comma header = false -> JS.has_comma body = false ->
  (toDataURL_jpeg (surface cv) = (header ++ String ","%char body)%string ->
   getSnapshot st = JS.Str body) /\
  (toDataURL_jpeg (surface cv) = header -> getSnapshot st = JS.Undefined).
Proof.
  intros Hc Hh Hb. unfold getSnapshot. rewrite Hc. split; intros ->.
  - rewrite (split_comma_at _ _ Hh), (split_comma_plain _ Hb). reflexivity.
  - rewrite (split_comma_plain _ Hh). reflexivity.
Qed.

(** No frame is sent without a picture of the first canvas: when its handle
    is null or its canvas element is missing, [stitchCanvases] gives
    nothing, whatever the mode and the second picture.  Two canvases are
    stitched exactly when both snapshots are non-empty strings, the second
    one being the second canvas in a battle and the opponent's picture in
    an online game; a solo game never stitches. *)
Theorem stitchCanvases_cases (gameMode : GameMode)
    (handle : option (State Surface)) (snap1 battleSnap remote : option string) :
  ((handle = None \/ exists st, handle = Some st /\ canvasRef st = None) ->
   stitchCanvases gameMode (snapshot_of handle) battleSnap remote = NoFrame) /\
  (forall a b,
     stitchCanvases gameMode snap1 battleSnap remote = TwoCanvases a b <->
     snap1 = Some a /\ a <> EmptyString /\ b <> EmptyString /\
     match gameMode with
     | SOLO => False
     | BATTLE => battleSnap = Some b
     | ONLINE => remote = Some b
     end).
Proof.
  split.
  - intros [-> | (st & -> & Hc)]; [reflexivity|].
    unfold snapshot_of, getSnapshot. rewrite Hc. reflexivity.
  - intros a b. unfold stitchCanvases.
    destruct snap1 as [[|c1 s1]|]; cbn [JS.falsy];
      try (split; [discriminate | intros (E & Ha & _); congruence]).
    destruct gameMode.
    + split; [discriminate | tauto].
    + destruct battleSnap as [[|c2 s2]|]; cbn [JS.falsy];
        try (split; [discriminate | intros (_ & _ & Hb & E); congruence]).
      split.
      * intro E. injection E as <- <-. repeat split; discriminate.
      * intros (E1 & _ & _ & E2). congruence.
    + destruct remote as [[|c2 s2]|]; cbn [JS.falsy];
        try (split; [discriminate | intros (_ & _ & Hb & E); congruence]).
      split.
      * intro E. injection E as <- <-. repeat split; discriminate.
      * intros (E1 & _ & _ & E2). congruence.
Qed.

End Frames.

(** ** Rooms *)

Section RoomFacts.

Import App.

Variable SESSION_ID : string.

Lemma receive_join_unanswered (msg : Message) (s : Online) (room : string)
    (c : Closure) :
  channel s = Some (room, c) -> c_isHost c = false ->
  join_request msg = true ->
  receive SESSION_ID msg s = (s, []).
Proof.
  intros Hch Hc Hj. unfold receive. rewrite Hch.
  destruct msg as [sender [prompt|] | | | | |]; try discriminate Hj.
  cbn [handleMessage]. rewrite Hc. reflexivity.
Qed.

Lemma receive_all_joins_unanswered (msgs : list Message) (s : Online)
    (room : string) (c : Closure) :
  channel s = Some (room, c) -> c_isHost c = false ->
  forallb join_request msgs = true ->
  receive_all SESSION_ID msgs s = (s, []).
Proof.
  intros Hch Hc. induction msgs as [|msg rest IH]; intro Hall; [reflexivity|].
  cbn [forallb] in Hall. apply andb_true_iff in Hall as [Hj Hall].
  cbn [receive_all].
  rewrite (receive_join_unanswered msg s room c Hch Hc Hj), (IH Hall).
  reflexivity.
Qed.

Lemma receive_join_answered (sender : string) (s : Online) (room : string)
    (c : Closure) :
  channel s = Some (room, c) -> c_isHost c = true -> c_opponent c = None ->
  receive SESSION_ID (PLAYER_JOINED sender None) s
  = (mkOnline (isHost s) (Some (mkPlayer sender "Opponent" 0 true None))
       (currentPrompt s) (gameState s) (roomCode s) (remoteCanvasData s)
       (scores s) (channel s),
     [setOpponent (mkPlayer sender "Opponent" 0 true None);
      playPoint;
      postMessage (PLAYER_JOINED SESSION_ID (Some (c_currentPrompt c)))]).
Proof.
  intros Hch Hc Ho. unfold receive. rewrite Hch.
  cbn [handleMessage]. rewrite Hc, Ho. cbn. rewrite ?Hch. reflexivity.
Qed.

(** The handler of a room works on the state of the render in which the
    room was opened.  Opened as host while [isHost] was still false (as it
    is when the app has just loaded), the room leaves every join request
    unanswered: no opponent is set and nothing is posted.  Opened as host
    while [isHost] was already true and no opponent set, it answers every
    join request, a second one as well, and the latest sender becomes the
    opponent. *)
Theorem room_handler_keeps_old_state (code : string) (s : Online) :
  let s1 := fst (connectToRoom SESSION_ID code true s) in
  (isHost s = false ->
   forall msgs, forallb join_request msgs = true ->
     receive_all SESSION_ID msgs s1 = (s1, [])) /\
  (isHost s = true -> opponent s = None ->
   forall first second,
     let s3 := fst (receive_all SESSION_ID
                      [PLAYER_JOINED first None; PLAYER_JOINED second None] s1) in
     opponent s3 = Some (mkPlayer second "Opponent" 0 true None) /\
     snd (receive_all SESSION_ID
            [PLAYER_JOINED first None; PLAYER_JOINED second None] s1)
     = [setOpponent (mkPlayer first "Opponent" 0 true None);
        playPoint;
        postMessage (PLAYER_JOINED SESSION_ID (Some (currentPrompt s)));
        setOpponent (mkPlayer second "Opponent" 0 true None);
        playPoint;
        postMessage (PLAYER_JOINED SESSION_ID (Some (currentPrompt s)))]).
Proof.
  cbn zeta. split.
  - intros Hh msgs Hall.
    apply (receive_all_joins_unanswered msgs _
             ("sketch-master-" ++ code)%string (closure_of s));
      [reflexivity | exact Hh | exact Hall].
  - intros Hh Ho first second.
    set (s1 := fst (connectToRoom SESSION_ID code true s)).
    assert (Hch1 : channel s1
                   = Some (("sketch-master-" ++ code)%string, closure_of s))
      by reflexivity.
    cbn [receive_all].
    rewrite (receive_join_answered first s1 _ _ Hch1 Hh Ho).
    match goal with
    | |- context [receive SESSION_ID (PLAYER_JOINED second None) ?t] =>
        set (s2 := t);
        assert (Hch2 : channel s2
                       = Some (("sketch-master-" ++ code)%string, closure_of s))
          by reflexivity
    end.
    rewrite (receive_join_answered second s2 _ _ Hch2 Hh Ho).
    cbn. split; reflexivity.
Qed.

End RoomFacts.

(** ** Bounds on the speed estimate *)

Section SpeedBounds.

Import DrawingCanvas.

Context {Surface : Type} `{CanvasAPI Surface}.

Variable Math_sqrt : Q -> Q.

Lemma smoothing_between (M : Q) (ds : list Q) :
  forall a : Q,
    0 <= a -> a <= M ->
    Forall (fun d => 0 <= d /\ d <= M) ds ->
    0 <= last (Spec.smoothing a ds) a /\ last (Spec.smoothing a ds) a <= M.
Proof.
  induction ds as [|d ds IH]; intros a H0 HM Hall; [cbn; split; assumption|].
  inversion Hall as [|? ? [Hd0 HdM] Hrest]; subst.
  cbn [Spec.smoothing]. rewrite last_cons_start.
  apply IH; [| |exact Hrest];
    unfold Qdiv; change (/ 2) with (1 # 2); lra.
Qed.

(** [averageSpeed] stays between 0 and the largest distance measured: on a
    run from the mounted component on which every distance fed to it lies
    between 0 and [M], so does [averageSpeed]. *)
Theorem averageSpeed_between (acts : list (Action Surface))
    (cv : option (CanvasEl Surface)) (active : bool) (now : Z) (M : Q) :
  Forall (fun d => 0 <= d /\ d <= M)
    (updates Math_sqrt acts (mount cv active now)) ->
  0 <= M ->
  let st := run Math_sqrt acts (mount cv active now) in
  0 <= averageSpeed (metrics st) /\ averageSpeed (metrics st) <= M.
Proof.
  intros Hall HM. cbn zeta.
  rewrite (run_averageSpeed Math_sqrt acts (mount cv active now)).
  apply smoothing_between; [apply Qle_refl | exact HM | exact Hall].
Qed.

End SpeedBounds.

(** ** More runs on the text canvas *)

Section MoreRuns.

Import DrawingCanvas App.

Lemma demo_sqrt_nonneg (x : Q) : 0 <= Demo.sqrt x.
Proof.
  unfold Demo.sqrt. apply Qle_shift_div_l; [reflexivity|].
  rewrite Qmult_0_l. change 0 with (inject_Z 0). rewrite <- Zle_Qle.
  apply Z.sqrt_nonneg.
Qed.

Lemma undo_redo_keep_count_witness :
  let st := Demo.showing "c" false ["a"; "p"]%string ["r"%string] in
  let st' := run Demo.sqrt [callUndo; callRedo; callUndo] st in
  (List.length (undoStack st') + List.length (redoStack st') = 2 + 1)%nat.
Proof.
  exact (undo_redo_keep_count Demo.sqrt [callUndo; callRedo; callUndo]
           (Demo.showing "c" false ["a"; "p"]%string ["r"%string]) eq_refl).
Defined.

Lemma other_handlers_keep_stacks_witness :
  undoStack (step Demo.sqrt (onPointerUp 1 2) Demo.mid_stroke)
  = undoStack Demo.mid_stroke.
Proof.
  exact (proj1 (other_handlers_keep_stacks Demo.sqrt (onPointerUp 1 2)
                  Demo.mid_stroke eq_refl)).
Defined.

Lemma clear_can_be_undone_witness :
  let st := Demo.showing "c" false ["a"%string] ["r"%string] in
  canvasRef (img_onload 0 (undo (clear st))) = Demo.canvas "c".
Proof.
  exact (proj1 (proj2 (clear_can_be_undone
                         (Demo.showing "c" false ["a"%string] ["r"%string])
                         (mkCanvas true "c"%string) eq_refl eq_refl))).
Defined.

Lemma redo_undo_round_trip_witness :
  let st := Demo.showing "c" false ["a"%string] ["r"; "n"]%string in
  let st3 := undo (img_onload 0 (redo st)) in
  undoStack st3 = undoStack st /\ redoStack st3 = redoStack st.
Proof.
  cbn zeta.
  destruct (redo_undo_round_trip (H := Demo.text_canvas)
              (Demo.showing "c" false ["a"%string] ["r"; "n"]%string)
              (mkCanvas true "c"%string) ["r"%string] "n"%string
              eq_refl eq_refl eq_refl eq_refl)
    as (_ & _ & Hu & Hr & _).
  split; [exact Hu | exact Hr].
Defined.

Lemma inactive_ignores_pointer_witness :
  run Demo.sqrt
    [onPointerDown Demo.origin (MouseEvent 1 1) 5;
     onPointerMove Demo.origin (MouseEvent 2 2)] Demo.switched_off
  = Demo.switched_off.
Proof.
  exact (inactive_ignores_pointer Demo.sqrt
           [onPointerDown Demo.origin (MouseEvent 1 1) 5;
            onPointerMove Demo.origin (MouseEvent 2 2)]
           Demo.switched_off eq_refl eq_refl).
Defined.

Lemma press_starts_stroke_witness :
  let st := Demo.showing "c" false [] [] in
  lastPos (startDrawing Demo.sqrt Demo.origin (MouseEvent 3 4) 10 st) = None.
Proof.
  exact (proj1 (proj2 (proj2
           (press_starts_stroke Demo.sqrt Demo.origin (MouseEvent 3 4) 10
              (Demo.showing "c" false [] []) eq_refl eq_refl)))).
Defined.

Lemma stroke_effect_witness :
  let st := Demo.showing "c" false [] ["r"%string] in
  let st' := run Demo.sqrt
               (stroke (Demo.origin, MouseEvent 0 0) 10 Demo.three_moves 20 21)
               st in
  undoStack st' = ["c"%string] /\ redoStack st' = [] /\ isDrawing st' = false.
Proof.
  cbn zeta.
  destruct (stroke_effect Demo.sqrt (Demo.origin, MouseEvent 0 0) 10
              Demo.three_moves 20 21 (Demo.showing "c" false [] ["r"%string])
              (mkCanvas true "c"%string) eq_refl eq_refl eq_refl eq_refl eq_refl)
    as (Hd & _ & Hu & Hr & _).
  split; [exact Hu|]. split; [exact Hr | exact Hd].
Defined.

Lemma one_stroke_chronological : chronological 5 Demo.one_stroke.
Proof. cbn. repeat split; lia. Defined.

Lemma reachable_metrics_non_negative_witness :
  (0 <= 5)%Z /\ chronological 5 Demo.one_stroke /\
  non_negative
    (metrics (run Demo.sqrt Demo.one_stroke (mount (Demo.canvas "") true 5))).
Proof.
  assert (H5 : (0 <= 5)%Z) by lia.
  split; [exact H5|]. split; [exact one_stroke_chronological|].
  exact (proj1 (reachable_metrics_non_negative Demo.sqrt demo_sqrt_nonneg
                  Demo.one_stroke (Demo.canvas "") true 5 H5
                  one_stroke_chronological)).
Defined.

Lemma pressed_and_moved_updates :
  Forall (fun d => 0 <= d /\ d <= 30)
    (updates Demo.sqrt Demo.pressed_and_moved (mount (Demo.canvas "") true 0)).
Proof.
  vm_compute.
  repeat (apply Forall_cons; [split; discriminate|]).
  apply Forall_nil.
Defined.

Lemma averageSpeed_between_witness :
  let st := run Demo.sqrt Demo.pressed_and_moved (mount (Demo.canvas "") true 0) in
  0 <= averageSpeed (metrics st) /\ averageSpeed (metrics st) <= 30.
Proof.
  refine (averageSpeed_between Demo.sqrt Demo.pressed_and_moved
            (Demo.canvas "") true 0 30 pressed_and_moved_updates _).
  vm_compute. discriminate.
Defined.

Lemma scores_are_hundredths_witness :
  exists p,
    getMetricsPayload live (Some Demo.some_metrics) 30 9000 0 0 = Some p /\
    exists n : Z,
      (0 <= n <= 100)%Z /\ confidence_score (confidence p) = inject_Z n / 100.
Proof.
  eexists. split; [reflexivity|].
  pose proof (scores_are_hundredths live 30 9000 0 0 Demo.some_metrics _
                some_metrics_non_negative eq_refl) as Hall.
  cbn zeta in Hall. inversion Hall as [|? ? [Hn _] _]. exact Hn.
Defined.

Lemma scores_follow_the_metrics_witness :
  exists p1 p2,
    getMetricsPayload live (Some Demo.some_metrics) 30 9000 0 0 = Some p1 /\
    getMetricsPayload live (Some Demo.later_metrics) 30 9000 0 0 = Some p2 /\
    clarity_score (clarity p1) <= clarity_score (clarity p2).
Proof.
  eexists. eexists. split; [reflexivity|]. split; [reflexivity|].
  refine (proj1 (proj2 (scores_follow_the_metrics live 30 9000 0 0
                          Demo.some_metrics Demo.later_metrics _ _
                          eq_refl eq_refl _))).
  vm_compute. discriminate.
Defined.

Lemma efficiency_ends_witness :
  exists p,
    getMetricsPayload live (Some Demo.some_metrics) 30 9000 0 0 = Some p /\
    efficiency_score (efficiency p) == 1.
Proof.
  eexists. split; [reflexivity|].
  refine (proj2 (efficiency_ends live 30 9000 0 0 Demo.some_metrics _
                   some_metrics_non_negative eq_refl) _).
  vm_compute. discriminate.
Defined.

Lemma panic_means_rising_witness :
  exists p,
    getMetricsPayload live (Some (mkMetrics 12 0 0 4000 0 0 150)) 6 0 0 0 = Some p /\
    trend (confidence p) = rising.
Proof.
  eexists. split; [reflexivity|].
  exact (panic_means_rising live 6 0 0 0 (mkMetrics 12 0 0 4000 0 0 150) _
           eq_refl eq_refl).
Defined.

Lemma MetricRow_bar_witness : MetricRow 2 = None.
Proof.
  apply (proj2 (proj1 (MetricRow_bar 2))). right. vm_compute. discriminate.
Defined.

Lemma overlay_renders_witness :
  exists p n1 n2 n3,
    getMetricsPayload live (Some Demo.some_metrics) 30 9000 0 0 = Some p /\
    DebugOverlay (Some p)
    = Some (map (fun n => Some (JS.copies n full_block,
                                JS.copies (10 - n) light_shade))
              [n1; n2; n3]).
Proof.
  eexists.
  destruct (overlay_renders live Demo.some_metrics 30 9000 0 0 _
              some_metrics_non_negative eq_refl) as (n1 & n2 & n3 & _ & Hr).
  exists n1, n2, n3. split; [reflexivity | exact Hr].
Defined.

Lemma countdown_runs_out_witness :
  fst (ticks 3 PLAYING (inject_Z (Z.of_nat 60))) = PLAYING.
Proof.
  assert (H1 : (1 <= 60)%nat) by lia.
  exact (proj1 (proj1 (countdown_runs_out 3 60 LOBBY 0) H1)).
Defined.

Lemma pcm16_conversion_witness : (pcm16 1 < 0)%Z.
Proof.
  refine (proj2 (proj2 (proj2 (pcm16_conversion 1)) _ _)).
  - vm_compute. discriminate.
  - reflexivity.
Defined.

Lemma two_pieces_durations : durations_ok Demo.two_pieces.
Proof. cbn. repeat split; vm_compute; discriminate. Defined.

(** In [Demo.two_pieces] the first piece, decoded half a second after its
    audio arrived, is still playing for that half second when the second
    begins. *)
Lemma two_pieces_overlap :
  match sources (audio_run Demo.two_pieces fresh_playback) with
  | [a; b] =>
      begins b < ends a /\ ends a - begins b == begins a - requested a
  | _ => False
  end.
Proof. vm_compute. split; reflexivity. Qed.

Lemma commentary_is_queued_witness :
  durations_ok Demo.two_pieces /\
  late_overlap_only (sources (audio_run Demo.two_pieces fresh_playback)).
Proof.
  split; [exact two_pieces_durations|].
  exact (proj2 (commentary_is_queued Demo.two_pieces two_pieces_durations)).
Defined.

Lemma cooldown_follows_audio_witness :
  exists m,
    getMetricsPayload live (Some Demo.some_metrics) 30 3000
      (lastCommentTime
         (audio_run [audioArrived 1000 1; audioDecoded 2 (3 # 2)] fresh_playback))
      0
    = Some m /\
    cooldown_active (commentary m) = true.
Proof.
  eexists. split; [reflexivity|].
  refine (proj2 (proj2 (cooldown_follows_audio 1000 3000 1
                          [audioDecoded 2 (3 # 2)] fresh_playback live
                          Demo.some_metrics 30 0 _ eq_refl eq_refl)) _).
  lia.
Defined.

Lemma getSnapshot_base64_witness :
  getSnapshot (Demo.showing "abc" false [] []) = JS.Str "abc".
Proof.
  exact (proj1 (getSnapshot_base64 (Demo.showing "abc" false [] [])
                  (mkCanvas true "abc"%string) "data:image/jpeg;base64" "abc"
                  eq_refl eq_refl eq_refl) eq_refl).
Defined.

Lemma stitchCanvases_cases_witness :
  stitchCanvases BATTLE (snapshot_of (@None (State string))) (Some "x"%string) None
  = NoFrame.
Proof.
  refine (proj1 (stitchCanvases_cases BATTLE (@None (State string)) None
                   (Some "x"%string) None) _).
  left. reflexivity.
Defined.

Lemma room_handler_keeps_old_state_witness :
  let s1 := fst (connectToRoom "me" "ROOM" true loaded) in
  receive_all "me" [PLAYER_JOINED "guest" None] s1 = (s1, []).
Proof.
  exact (proj1 (room_handler_keeps_old_state "me" "ROOM" loaded) eq_refl
           [PLAYER_JOINED "guest"%string None] eq_refl).
Defined.

End MoreRuns.
